(** * Solr operator: the SolrCloud reconciler and the Prometheus exporter
      deployment generator.

    A shallow embedding of
    - [controllers/util/prometheus_exporter_util.go]
      ([GenerateSolrPrometheusExporterDeployment]),
    - the SolrCloud controller ([Reconcile], [reconcileCloudStatus],
      [reconcileNodeService], [reconcileZk]), and
    - [api/v1beta1/solrprometheusexporter_types.go] (the exporter types and
      their label helpers).

    Go values are modelled as follows.  Pointers that the code tests against
    [nil] are [option]s; a [nil] map or slice that the code (or
    [reflect.DeepEqual]) can tell apart from an empty one is an [option] too.
    [int], [int32] and [int64] are [Z].  A [map[string]string] is a
    [gmap string string].  Calls on the controller-runtime client are recorded
    in a trace and thread an abstract world; a nil dereference, an index out
    of range or a negative [make] length is the outcome [Panic]. *)

From Stdlib Require Import ZArith List Bool Ascii String.
From stdpp Require Import base option list gmap strings pretty sorting.

Local Open Scope string_scope.
Local Open Scope list_scope.
Local Open Scope Z_scope.

(** ** Strings *)

(** [strings.Contains(s, substr)]. *)
Fixpoint Contains (s substr : string) : bool :=
  String.prefix substr s ||
  match s with
  | EmptyString => false
  | String _ s' => Contains s' substr
  end.

(** [strings.Join(elems, sep)]. *)
Fixpoint Join (elems : list string) (sep : string) : string :=
  match elems with
  | [] => ""
  | [e] => e
  | e :: rest => e +:+ sep +:+ Join rest sep
  end.

(** [strconv.Itoa] and the [%d] verb of [fmt.Sprintf]. *)
Definition Itoa (n : Z) : string := pretty n.

(** [sort.Strings]: ascending byte-wise order.  The sorted permutation of a
    list of strings is unique, so the algorithm does not matter. *)
Definition sortStrings (l : list string) : list string :=
  merge_sort String.le l.

(** ** API errors *)

Module errors.

Inductive StatusReason :=
| StatusReasonUnknown
| StatusReasonNotFound
| StatusReasonBadRequest
| StatusReasonOther (reason : string).

Record error := { Reason : StatusReason; Message : string }.

Definition NewBadRequest (reason : string) : error :=
  {| Reason := StatusReasonBadRequest; Message := reason |}.

Definition IsNotFound (err : error) : bool :=
  match Reason err with StatusReasonNotFound => true | _ => false end.

Definition IsBadRequest (err : error) : bool :=
  match Reason err with StatusReasonBadRequest => true | _ => false end.

End errors.

Abbreviation error := errors.error.

(** ** Kubernetes core types, as far as the code reads or builds them *)

Abbreviation labelmap := (gmap string string).

Record NamespacedName := { nnNamespace : string; nnName : string }.

Record ObjectMeta := {
  Name : string;
  Namespace : string;
  Labels : option labelmap;
  Annotations : option labelmap;
}.

Definition emptyMeta : ObjectMeta :=
  {| Name := ""; Namespace := ""; Labels := None; Annotations := None |}.

Record KeyToPath := { ktpKey : string; ktpPath : string }.

Record ConfigMapVolumeSource := {
  cmvsName : string;              (* LocalObjectReference.Name *)
  cmvsItems : list KeyToPath;
}.

Record Volume := {
  volName : string;
  volConfigMap : option ConfigMapVolumeSource;   (* VolumeSource.ConfigMap *)
}.

Record VolumeMount := {
  vmName : string;
  vmMountPath : string;
  vmReadOnly : bool;
}.

Record ContainerPort := { cpContainerPort : Z; cpName : string }.

Record HTTPGetAction := {
  hgScheme : string;
  hgPath : string;
  hgPort : Z;                     (* intstr.FromInt *)
}.

Record Probe := {
  prInitialDelaySeconds : Z;
  prPeriodSeconds : Z;
  prHTTPGet : option HTTPGetAction;
}.

(** [corev1.ResourceRequirements]: two resource lists, each possibly nil. *)
Record ResourceRequirements := {
  Limits : option labelmap;
  Requests : option labelmap;
}.

Definition noResources : ResourceRequirements :=
  {| Limits := None; Requests := None |}.

(** [corev1.Affinity] is only ever copied, never inspected. *)
Record Affinity := { affinityRules : list string }.

Record Container := {
  ctName : string;
  ctImage : string;
  ctImagePullPolicy : string;
  ctPorts : list ContainerPort;
  ctVolumeMounts : option (list VolumeMount);
  ctCommand : list string;
  ctArgs : list string;
  ctLivenessProbe : option Probe;
  ctResources : ResourceRequirements;
}.

Record PodSpec := {
  psNodeName : string;
  psTerminationGracePeriodSeconds : option Z;
  psFSGroup : option Z;           (* SecurityContext.FSGroup *)
  psVolumes : option (list Volume);
  psContainers : list Container;
  psImagePullSecrets : option (list string);
  psAffinity : option Affinity;
}.

Record ContainerStatus := { csName : string; csReady : bool }.

Record Pod := {
  podMeta : ObjectMeta;
  podSpec : PodSpec;
  podContainerStatuses : list ContainerStatus;  (* Status.ContainerStatuses *)
}.

Record PodTemplateSpec := {
  ptLabels : labelmap;            (* ObjectMeta.Labels *)
  ptSpec : PodSpec;
}.

Record DeploymentSpec := {
  dsSelector : labelmap;          (* Selector.MatchLabels *)
  dsReplicas : option Z;
  dsTemplate : PodTemplateSpec;
}.

Record Deployment := {
  depMeta : ObjectMeta;
  depSpec : DeploymentSpec;
}.

Record Service := {
  svcMeta : ObjectMeta;
  svcClusterIP : string;          (* Spec.ClusterIP *)
  svcSelector : labelmap;
}.

Record ConfigMap := {
  cmMeta : ObjectMeta;
  cmData : option labelmap;
}.

Record StatefulSet := {
  stsMeta : ObjectMeta;
  stsTemplate : PodTemplateSpec;
  stsStatusReplicas : Z;          (* Status.Replicas *)
  stsStatusReadyReplicas : Z;     (* Status.ReadyReplicas *)
}.

Record Ingress := {
  ingMeta : ObjectMeta;
  ingHosts : list string;
}.

(** The ZookeeperCluster resource of the zookeeper operator. *)
Record ZookeeperCluster := {
  zkMeta : ObjectMeta;
  zkSpecReplicas : Z;             (* Spec.Replicas *)
  zkSpecPorts : list ContainerPort;   (* Spec.Ports *)
  zkExternalClientEndpoint : string;  (* Status.ExternalClientEndpoint *)
}.

(** ** The operator's API types ([api/v1beta1]) *)

Module solr.

Definition SolrPrometheusExporterTechnologyLabel : string :=
  "solr-prometheus-exporter".

(** [ContainerImage], [PodOptions], [ZookeeperConnectionInfo] and the
    SolrCloud types are declared in files of [api/v1beta1] other than the
    exporter's; their fields are the ones the code selects. *)
Record ContainerImage := {
  Repository : string;
  Tag : string;
  PullPolicy : string;
  ImagePullSecret : string;
}.

Record PodOptions := {
  poAffinity : option Affinity;
  poResources : ResourceRequirements;
}.

(** [solr.PodOptions{}] *)
Definition emptyPodOptions : PodOptions :=
  {| poAffinity := None; poResources := noResources |}.

Record ZookeeperConnectionInfo := {
  InternalConnectionString : string;
  ExternalConnectionString : option string;
  ChRoot : string;
}.

Definition emptyZkInfo : ZookeeperConnectionInfo :=
  {| InternalConnectionString := ""; ExternalConnectionString := None;
     ChRoot := "" |}.

Record StandaloneSolrReference := { Address : string }.

Record SolrCloudReference := {
  scrName : string;
  scrNamespace : string;
  scrZookeeperConnectionInfo : option ZookeeperConnectionInfo;
}.

Record SolrReference := {
  Cloud : option SolrCloudReference;
  Standalone : option StandaloneSolrReference;
}.

(** [DeploymentOptions] and [ConfigMapOptions] are never read here. *)
Record CustomPrometheusKubeOptions := {
  PodOptions_ : option PodOptions;
  DeploymentOptions : option labelmap;
  ConfigMapOptions : option labelmap;
}.

Record SolrPrometheusExporterSpec := {
  speSolrReference : SolrReference;
  Image : option ContainerImage;
  CustomPrometheusKubeOptions_ : CustomPrometheusKubeOptions;
  ExporterEntrypoint : string;
  NumThreads : Z;
  ScrapeInterval : Z;
  Config : string;
}.

Record SolrPrometheusExporterStatus := { speReady : bool }.

Record SolrPrometheusExporter := {
  speMeta : ObjectMeta;
  speSpec : SolrPrometheusExporterSpec;
  speStatus : SolrPrometheusExporterStatus;
}.

(** *** SolrCloud *)

Record ExternalAddressability := {
  Method : string;                (* ExternalAddressabilityMethod *)
  UseExternalAddress : bool;
  HideCommon : bool;
  HideNodes : bool;
  DomainName : string;
}.

Record ProvidedZookeeper := {
  pzkChRoot : string;
  pzkReplicas : option Z;
}.

Record ZookeeperRef := {
  ConnectionInfo : option ZookeeperConnectionInfo;
  ProvidedZookeeper_ : option ProvidedZookeeper;
}.

Record SolrCloudSpec := {
  Replicas : option Z;
  ZookeeperRef_ : ZookeeperRef;
  SolrImage : ContainerImage;
  BusyBoxImage : option ContainerImage;
  BackupRestoreVolume : option Volume;
  External : option ExternalAddressability;  (* SolrAddressability.External *)
}.

Record SolrNodeStatus := {
  nsName : string;
  nsNodeName : string;
  nsInternalAddress : string;
  nsExternalAddress : string;
  nsReady : bool;
  nsVersion : string;
}.

(** [solr.SolrNodeStatus{}] *)
Definition emptyNodeStatus : SolrNodeStatus :=
  {| nsName := ""; nsNodeName := ""; nsInternalAddress := "";
     nsExternalAddress := ""; nsReady := false; nsVersion := "" |}.

Record SolrCloudStatus := {
  SolrNodes : option (list SolrNodeStatus);
  stReplicas : Z;
  stReadyReplicas : Z;
  Version : string;
  TargetVersion : string;
  InternalCommonAddress : string;
  ExternalCommonAddress : option string;
  ZookeeperConnectionInfo_ : ZookeeperConnectionInfo;
  BackupRestoreReady : bool;
}.

(** [solr.SolrCloudStatus{}] *)
Definition emptyStatus : SolrCloudStatus :=
  {| SolrNodes := None; stReplicas := 0; stReadyReplicas := 0;
     Version := ""; TargetVersion := ""; InternalCommonAddress := "";
     ExternalCommonAddress := None; ZookeeperConnectionInfo_ := emptyZkInfo;
     BackupRestoreReady := false |}.

Record SolrCloud := {
  scMeta : ObjectMeta;
  scSpec : SolrCloudSpec;
  scStatus : SolrCloudStatus;
}.

(** [(spe *SolrPrometheusExporter) SharedLabelsWith] *)
Definition SharedLabelsWith (spe : SolrPrometheusExporter)
    (labels : option labelmap) : labelmap :=
  let newLabels : labelmap :=
    match labels with
    | Some l => l
    | None => ∅
    end in
  <[SolrPrometheusExporterTechnologyLabel := Name (speMeta spe)]> newLabels.

(** [(spe *SolrPrometheusExporter) SharedLabels] *)
Definition SharedLabels (spe : SolrPrometheusExporter) : labelmap :=
  SharedLabelsWith spe (Some ∅).

Definition MetricsDeploymentName (sc : SolrPrometheusExporter) : string :=
  Name (speMeta sc) +:+ "-solr-metrics".

Definition MetricsConfigMapName (sc : SolrPrometheusExporter) : string :=
  Name (speMeta sc) +:+ "-solr-metrics".

Definition MetricsServiceName (sc : SolrPrometheusExporter) : string :=
  Name (speMeta sc) +:+ "-solr-metrics".

End solr.

(** ** Outcomes *)

(** A Go call either returns or panics. *)
Inductive outcome (A : Type) :=
| Ok (a : A)
| Panic.
Arguments Ok {A} a.
Arguments Panic {A}.

(** ** Code of the repository that lies outside the files embedded here

    Methods of [api/v1beta1] on [ContainerImage], [SolrCloud] and
    [SolrCloudStatus], [ImageVersion], and [ZookeeperPorts] of the zookeeper
    operator.  The embedded code only calls them, so they are taken as an
    interface. *)
Class SolrAPI := {
  ToImageName : solr.ContainerImage → string;
  ImageVersion : string → string;
  ZkConnectionString : solr.SolrCloudStatus → string;
  WithDefaults : string → solr.SolrCloud → bool * solr.SolrCloud;
  GetAllSolrNodeNames : solr.SolrCloud → list string;
  UsesIndividualNodeServices : solr.SolrCloud → bool;
  UsesHeadlessService : solr.SolrCloud → bool;
  AdvertisedNodeHost : solr.SolrCloud → string → string;
  CloudSharedLabels : solr.SolrCloud → labelmap;
  InternalNodeUrl : solr.SolrCloud → string → bool → string;
  ExternalNodeUrl : solr.SolrCloud → string → string → bool → string;
  InternalCommonUrl : solr.SolrCloud → bool → string;
  ExternalCommonUrl : solr.SolrCloud → string → bool → string;
  ZookeeperPortsClient : ZookeeperCluster → Z;
  SolrTechnologyLabel : string;
  IngressMethod : string;           (* the addressability method [solr.Ingress] *)
}.

(** ** [controllers/util/prometheus_exporter_util.go] *)

Module util.

Definition SolrMetricsPort : Z := 8080.
Definition SolrMetricsPortName : string := "solr-metrics".
Definition ExtSolrMetricsPort : Z := 80.
Definition ExtSolrMetricsPortName : string := "ext-solr-metrics".
Definition DefaultPrometheusExporterEntrypoint : string :=
  "/opt/solr/contrib/prometheus-exporter/bin/solr-exporter".

Record SolrConnectionInfo := {
  CloudZkConnnectionString : string;
  StandaloneAddress : string;
}.

Definition eqs (a b : string) : bool := bool_decide (a = b).

Section Exporter.
Context `{SolrAPI}.

(** The volumes, mounts and [-f] argument chosen from [Spec.Config]. *)
Definition exporterConfig (spe : solr.SolrPrometheusExporter)
    : option (list Volume) * option (list VolumeMount) * list string :=
  if negb (eqs (solr.Config (solr.speSpec spe)) "") then
    (Some [ {| volName := "solr-prometheus-exporter-xml";
               volConfigMap := Some
                 {| cmvsName := solr.MetricsConfigMapName spe;
                    cmvsItems :=
                      [ {| ktpKey := "solr-prometheus-exporter.xml";
                           ktpPath := "solr-prometheus-exporter.xml" |} ]
                 |} |} ],
     Some [ {| vmName := "solr-prometheus-exporter-xml";
               vmMountPath := "/opt/solr-exporter";
               vmReadOnly := true |} ],
     ["-f"; "/opt/solr-exporter/solr-prometheus-exporter.xml"])
  else
    (None, None,
     ["-f";
      "/opt/solr/contrib/prometheus-exporter/conf/solr-exporter-config.xml"]).

(** The arguments of the exporter, in the order they are appended. *)
Definition exporterArgs (spe : solr.SolrPrometheusExporter)
    (solrConnectionInfo : SolrConnectionInfo) : list string :=
  let spec := solr.speSpec spe in
  ["-p"; Itoa SolrMetricsPort; "-n"; Itoa (solr.NumThreads spec)]
  ++ (if 0 <? solr.ScrapeInterval spec
      then ["-s"; Itoa (solr.ScrapeInterval spec)] else [])
  ++ (if negb (eqs (CloudZkConnnectionString solrConnectionInfo) "")
      then ["-z"; CloudZkConnnectionString solrConnectionInfo]
      else if negb (eqs (StandaloneAddress solrConnectionInfo) "")
      then ["-b"; StandaloneAddress solrConnectionInfo]
      else [])
  ++ (exporterConfig spe).2.

Definition setPodOptions (spe : solr.SolrPrometheusExporter)
    (po : option solr.PodOptions) : solr.SolrPrometheusExporter :=
  let spec := solr.speSpec spe in
  let opts := solr.CustomPrometheusKubeOptions_ spec in
  {| solr.speMeta := solr.speMeta spe;
     solr.speSpec :=
       {| solr.speSolrReference := solr.speSolrReference spec;
          solr.Image := solr.Image spec;
          solr.CustomPrometheusKubeOptions_ :=
            {| solr.PodOptions_ := po;
               solr.DeploymentOptions := solr.DeploymentOptions opts;
               solr.ConfigMapOptions := solr.ConfigMapOptions opts |};
          solr.ExporterEntrypoint := solr.ExporterEntrypoint spec;
          solr.NumThreads := solr.NumThreads spec;
          solr.ScrapeInterval := solr.ScrapeInterval spec;
          solr.Config := solr.Config spec |};
     solr.speStatus := solr.speStatus spe |}.

(** [GenerateSolrPrometheusExporterDeployment].  The exporter is passed
    by pointer: the result pairs the deployment with the exporter as the
    call leaves it. *)
Definition GenerateSolrPrometheusExporterDeployment
    (solrPrometheusExporter : solr.SolrPrometheusExporter)
    (solrConnectionInfo : SolrConnectionInfo)
    : outcome (Deployment * solr.SolrPrometheusExporter) :=
  let gracePeriodTerm := 10 in
  let singleReplica := 1 in
  let fsGroup := SolrMetricsPort in
  let spec := solr.speSpec solrPrometheusExporter in
  let labels :=
    <["technology" := solr.SolrPrometheusExporterTechnologyLabel]>
      (solr.SharedLabelsWith solrPrometheusExporter
         (Labels (solr.speMeta solrPrometheusExporter))) in
  let selectorLabels :=
    <["technology" := solr.SolrPrometheusExporterTechnologyLabel]>
      (solr.SharedLabels solrPrometheusExporter) in
  let '(solrVolumes, volumeMounts, _) :=
    exporterConfig solrPrometheusExporter in
  let args := exporterArgs solrPrometheusExporter solrConnectionInfo in
  let entrypoint :=
    if negb (eqs (solr.ExporterEntrypoint spec) "")
    then solr.ExporterEntrypoint spec
    else DefaultPrometheusExporterEntrypoint in
  match solr.Image spec with
  | None => Panic          (* Spec.Image.PullPolicy on a nil Image *)
  | Some image =>
    let container :=
      {| ctName := "solr-prometheus-exporter";
         ctImage := ToImageName image;
         ctImagePullPolicy := solr.PullPolicy image;
         ctPorts := [ {| cpContainerPort := SolrMetricsPort;
                         cpName := SolrMetricsPortName |} ];
         ctVolumeMounts := volumeMounts;
         ctCommand := [entrypoint];
         ctArgs := args;
         ctLivenessProbe := Some
           {| prInitialDelaySeconds := 20;
              prPeriodSeconds := 10;
              prHTTPGet := Some {| hgScheme := "HTTP";
                                   hgPath := "/metrics";
                                   hgPort := SolrMetricsPort |} |};
         ctResources := noResources |} in
    let imagePullSecrets :=
      if negb (eqs (solr.ImagePullSecret image) "")
      then Some [solr.ImagePullSecret image] else None in
    (* Initialize PodOptions if not provided *)
    let podOptions :=
      match solr.PodOptions_ (solr.CustomPrometheusKubeOptions_ spec) with
      | None => solr.emptyPodOptions
      | Some po => po
      end in
    let solrPrometheusExporter' :=
      match solr.PodOptions_ (solr.CustomPrometheusKubeOptions_ spec) with
      | None => setPodOptions solrPrometheusExporter
                  (Some solr.emptyPodOptions)
      | Some _ => solrPrometheusExporter
      end in
    (* Apply in customizations if provided by user *)
    let affinity := solr.poAffinity podOptions in
    let resources :=
      if bool_decide (Limits (solr.poResources podOptions) ≠ None)
         || bool_decide (Requests (solr.poResources podOptions) ≠ None)
      then solr.poResources podOptions else ctResources container in
    let container' :=
      {| ctName := ctName container;
         ctImage := ctImage container;
         ctImagePullPolicy := ctImagePullPolicy container;
         ctPorts := ctPorts container;
         ctVolumeMounts := ctVolumeMounts container;
         ctCommand := ctCommand container;
         ctArgs := ctArgs container;
         ctLivenessProbe := ctLivenessProbe container;
         ctResources := resources |} in
    Ok ({| depMeta :=
             {| Name := solr.MetricsDeploymentName solrPrometheusExporter;
                Namespace := Namespace (solr.speMeta solrPrometheusExporter);
                Labels := Some labels;
                Annotations := None |};
           depSpec :=
             {| dsSelector := selectorLabels;
                dsReplicas := Some singleReplica;
                dsTemplate :=
                  {| ptLabels := labels;
                     ptSpec :=
                       {| psNodeName := "";
                          psTerminationGracePeriodSeconds :=
                            Some gracePeriodTerm;
                          psFSGroup := Some fsGroup;
                          psVolumes := solrVolumes;
                          psContainers := [container'];
                          psImagePullSecrets := imagePullSecrets;
                          psAffinity := affinity |} |} |} |},
        solrPrometheusExporter')
  end.

End Exporter.

End util.

(** ** The controller-runtime client *)

Inductive Kind :=
| KSolrCloud | KService | KConfigMap | KStatefulSet | KIngress
| KZookeeperCluster.

Definition obj (k : Kind) : Type :=
  match k with
  | KSolrCloud => solr.SolrCloud
  | KService => Service
  | KConfigMap => ConfigMap
  | KStatefulSet => StatefulSet
  | KIngress => Ingress
  | KZookeeperCluster => ZookeeperCluster
  end.

(** A request sent to the API server. *)
Inductive Call :=
| CallGet (k : Kind) (key : NamespacedName)
| CallCreate (k : Kind) (o : obj k)
| CallUpdate (k : Kind) (o : obj k)
| CallStatusUpdate (o : solr.SolrCloud)
| CallList (namespace : string) (selector : labelmap).

(** The API server as the reconciler sees it: every request answers with an
    error or an object and may change the world [W].  A successful [Create],
    [Update] or [Status().Update] answers with the object as stored, which
    the Go client writes back into the object passed in.
    [SetControllerReference] is controller-runtime's owner wiring. *)
Class Client (W : Type) := {
  clientGet : ∀ k, NamespacedName → W → (error + obj k) * W;
  clientCreate : ∀ k, obj k → W → (error + obj k) * W;
  clientUpdate : ∀ k, obj k → W → (error + obj k) * W;
  clientStatusUpdate : solr.SolrCloud → W → (error + solr.SolrCloud) * W;
  clientList : string → labelmap → W → (error + list Pod) * W;
  SetControllerReference : solr.SolrCloud → ∀ k, obj k → error + obj k;
}.

(** The descriptor generators and field-copy functions of package [util]
    that the reconciler calls, and its constant [BackupRestoreVolume].  A
    [Copy...Fields from to] answers whether an update is needed together
    with [to] as it leaves it. *)
Class UtilPkg := {
  GenerateCommonService : solr.SolrCloud → Service;
  GenerateNodeService : solr.SolrCloud → string → Service;
  GenerateHeadlessService : solr.SolrCloud → Service;
  GenerateConfigMap : solr.SolrCloud → ConfigMap;
  GenerateStatefulSet :
    solr.SolrCloud → solr.SolrCloudStatus → labelmap → StatefulSet;
  GenerateIngress : solr.SolrCloud → list string → string → Ingress;
  GenerateZookeeperCluster :
    solr.SolrCloud → solr.ProvidedZookeeper → ZookeeperCluster;
  CopyServiceFields : Service → Service → bool * Service;
  CopyConfigMapFields : ConfigMap → ConfigMap → bool * ConfigMap;
  CopyStatefulSetFields : StatefulSet → StatefulSet → bool * StatefulSet;
  CopyIngressFields : Ingress → Ingress → bool * Ingress;
  CopyZookeeperClusterFields :
    ZookeeperCluster → ZookeeperCluster → bool * ZookeeperCluster;
  BackupRestoreVolume : string;
}.

(** The two process-wide settings, [useZkCRD] and [IngressBaseUrl]. *)
Record Settings := { useZkCRD : bool; IngressBaseUrl : string }.

(** ** Computations against the client *)

(** A computation answers with an outcome, the world it leaves and the
    requests it sent, oldest first. *)
Definition M (W A : Type) : Type := W → outcome A * W * list Call.

Global Instance M_ret {W} : MRet (M W) := λ A a w, (Ok a, w, []).

Global Instance M_bind {W} : MBind (M W) := λ A B f m w,
  match m w with
  | (Ok a, w1, t1) => let '(r, w2, t2) := f a w1 in (r, w2, t1 ++ t2)
  | (Panic, w1, t1) => (Panic, w1, t1)
  end.

Definition panic {W A} : M W A := λ w, (Panic, w, []).

Definition request {W A} (c : Call) (f : W → A * W) : M W A := λ w,
  let '(a, w') := f w in (Ok a, w', [c]).

Definition trace {W A} (r : outcome A * W * list Call) : list Call := r.2.
Definition result {W A} (r : outcome A * W * list Call) : outcome A := r.1.1.
Definition world {W A} (r : outcome A * W * list Call) : W := r.1.2.

(** [if err != nil { return ..., err }]: a step that answers [inl] ends the
    enclosing function with that answer. *)
Definition orReturn {W E A B} (m : M W (E + A)) (k : A → M W (E + B))
    : M W (E + B) :=
  r ← m; match r with inl e => mret (inl e) | inr x => k x end.

Notation "x ⇐ m ; k" := (orReturn m (λ x, k))
  (at level 20, m at level 100, k at level 200, only parsing).
Notation "' x ⇐ m ; k" := (orReturn m (λ x, k))
  (at level 20, x pattern, m at level 100, k at level 200, only parsing).

Section Requests.
Context `{Client W}.

Definition Get (k : Kind) (key : NamespacedName) : M W (error + obj k) :=
  request (CallGet k key) (clientGet k key).
Definition Create (k : Kind) (o : obj k) : M W (error + obj k) :=
  request (CallCreate k o) (clientCreate k o).
Definition Update (k : Kind) (o : obj k) : M W (error + obj k) :=
  request (CallUpdate k o) (clientUpdate k o).
Definition StatusUpdate (o : solr.SolrCloud)
    : M W (error + solr.SolrCloud) :=
  request (CallStatusUpdate o) (clientStatusUpdate o).
Definition List_ (namespace : string) (selector : labelmap)
    : M W (error + list Pod) :=
  request (CallList namespace selector) (clientList namespace selector).
End Requests.

(** The error left in [err] by a request. *)
Definition errOf {A} (r : error + A) : option error :=
  match r with inl e => Some e | inr _ => None end.

(** The object after a request that writes its answer back into it. *)
Definition written {A} (o : A) (r : error + A) : A :=
  match r with inl _ => o | inr o' => o' end.

Definition keyOf (m : ObjectMeta) : NamespacedName :=
  {| nnNamespace := Namespace m; nnName := Name m |}.

(** ** Decidable equality of the status ([reflect.DeepEqual]) *)

Global Instance ResourceRequirements_eq_dec : EqDecision ResourceRequirements.
Proof. solve_decision. Defined.
Global Instance ZookeeperConnectionInfo_eq_dec :
  EqDecision solr.ZookeeperConnectionInfo.
Proof. solve_decision. Defined.
Global Instance SolrNodeStatus_eq_dec : EqDecision solr.SolrNodeStatus.
Proof. solve_decision. Defined.
Global Instance SolrCloudStatus_eq_dec : EqDecision solr.SolrCloudStatus.
Proof. solve_decision. Defined.

(** ** The SolrCloud controller *)

Module controllers.

Import errors.

(** [ctrl.Result]; only [Requeue] is ever set. *)
Record Result := { Requeue : bool }.

(** What a [return] of [Reconcile] hands back. *)
Definition exit : Type := Result * option error.

(** [reflect.DeepEqual] on two statuses.  Slices and pointers are compared
    by content, and a nil slice or pointer equals only nil: with nil as
    [None] this is equality of the modelled values. *)
Definition DeepEqual (a b : solr.SolrCloudStatus) : bool :=
  bool_decide (a = b).

(** *** Assignments to fields of the status and of the instance *)

Definition setZookeeperConnectionInfo (s : solr.SolrCloudStatus)
    (zk : solr.ZookeeperConnectionInfo) : solr.SolrCloudStatus :=
  {| solr.SolrNodes := solr.SolrNodes s;
     solr.stReplicas := solr.stReplicas s;
     solr.stReadyReplicas := solr.stReadyReplicas s;
     solr.Version := solr.Version s;
     solr.TargetVersion := solr.TargetVersion s;
     solr.InternalCommonAddress := solr.InternalCommonAddress s;
     solr.ExternalCommonAddress := solr.ExternalCommonAddress s;
     solr.ZookeeperConnectionInfo_ := zk;
     solr.BackupRestoreReady := solr.BackupRestoreReady s |}.

Definition setReplicas (s : solr.SolrCloudStatus) (replicas ready : Z)
    : solr.SolrCloudStatus :=
  {| solr.SolrNodes := solr.SolrNodes s;
     solr.stReplicas := replicas;
     solr.stReadyReplicas := ready;
     solr.Version := solr.Version s;
     solr.TargetVersion := solr.TargetVersion s;
     solr.InternalCommonAddress := solr.InternalCommonAddress s;
     solr.ExternalCommonAddress := solr.ExternalCommonAddress s;
     solr.ZookeeperConnectionInfo_ := solr.ZookeeperConnectionInfo_ s;
     solr.BackupRestoreReady := solr.BackupRestoreReady s |}.

(** The assignments of [reconcileCloudStatus], all at once. *)
Definition setCloudStatus (s : solr.SolrCloudStatus)
    (nodes : list solr.SolrNodeStatus) (backupRestoreReady : bool)
    (version targetVersion internalCommon : string)
    (externalCommon : option string) : solr.SolrCloudStatus :=
  {| solr.SolrNodes := Some nodes;
     solr.stReplicas := solr.stReplicas s;
     solr.stReadyReplicas := solr.stReadyReplicas s;
     solr.Version := version;
     solr.TargetVersion := targetVersion;
     solr.InternalCommonAddress := internalCommon;
     solr.ExternalCommonAddress := externalCommon;
     solr.ZookeeperConnectionInfo_ := solr.ZookeeperConnectionInfo_ s;
     solr.BackupRestoreReady := backupRestoreReady |}.

Definition setStatus (instance : solr.SolrCloud)
    (s : solr.SolrCloudStatus) : solr.SolrCloud :=
  {| solr.scMeta := solr.scMeta instance;
     solr.scSpec := solr.scSpec instance;
     solr.scStatus := s |}.

Section Status.
Context `{SolrAPI} `{UtilPkg}.

(** *** [reconcileCloudStatus], after the pods are listed *)

(** The loop variables of the scan over [foundPods.Items]. *)
Record scan := {
  otherVersions : list string;
  nodeNames : list string;
  nodeStatusMap : gmap string solr.SolrNodeStatus;
  backupRestoreReadyPods : Z;
}.

Definition scan0 : scan :=
  {| otherVersions := []; nodeNames := []; nodeStatusMap := ∅;
     backupRestoreReadyPods := 0 |}.

Definition externalNodeAddress (solrCloud : solr.SolrCloud)
    (name : string) : string :=
  match solr.External (solr.scSpec solrCloud) with
  | Some ext =>
      if negb (solr.HideNodes ext)
      then "http://" +:+
           ExternalNodeUrl solrCloud name (solr.DomainName ext) true
      else ""
  | None => ""
  end.

(** Readiness and version of a pod: [ready], [nodeStatus.Version] and
    whether the version goes to [otherVersions]. *)
Definition podVersion (solrCloud : solr.SolrCloud) (p : Pod)
    : outcome (bool * string * bool) :=
  match podContainerStatuses p with
  | [] => Ok (false, "", false)
  | statuses =>
      match psContainers (podSpec p) with
      | [] => Panic                     (* p.Spec.Containers[0] *)
      | c :: _ =>
          let version := ImageVersion (ctImage c) in
          Ok (forallb csReady statuses, version,
              negb (util.eqs version
                      (solr.Tag (solr.SolrImage (solr.scSpec solrCloud)))))
      end
  end.

(** The volumes of a pod counted into [backupRestoreReadyPods]. *)
Definition backupVolumes (solrCloud : solr.SolrCloud) (p : Pod) : Z :=
  match solr.BackupRestoreVolume (solr.scSpec solrCloud) with
  | Some _ =>
      Z.of_nat (length (filter (λ v, volName v = BackupRestoreVolume)
                          (default [] (psVolumes (podSpec p)))))
  | None => 0
  end.

(** One iteration of the loop over the pods. *)
Definition scanPod (solrCloud : solr.SolrCloud) (acc : scan) (p : Pod)
    : outcome scan :=
  let name := Name (podMeta p) in
  match podVersion solrCloud p with
  | Panic => Panic
  | Ok (ready, version, other) =>
      let nodeStatus :=
        {| solr.nsName := name;
           solr.nsNodeName := psNodeName (podSpec p);
           solr.nsInternalAddress :=
             "http://" +:+ InternalNodeUrl solrCloud name true;
           solr.nsExternalAddress := externalNodeAddress solrCloud name;
           solr.nsReady := ready;
           solr.nsVersion := version |} in
      Ok {| otherVersions :=
              if other then otherVersions acc ++ [version]
              else otherVersions acc;
            nodeNames := nodeNames acc ++ [name];
            nodeStatusMap := <[name := nodeStatus]> (nodeStatusMap acc);
            backupRestoreReadyPods :=
              backupRestoreReadyPods acc + backupVolumes solrCloud p |}
  end.

Fixpoint scanPods (solrCloud : solr.SolrCloud) (acc : scan)
    (pods : list Pod) : outcome scan :=
  match pods with
  | [] => Ok acc
  | p :: rest =>
      match scanPod solrCloud acc p with
      | Ok acc' => scanPods solrCloud acc' rest
      | Panic => Panic
      end
  end.

(** The per-node array: the names sorted, each looked up in the map (a
    missing key reads as the zero value). *)
Definition solrNodes (acc : scan) : list solr.SolrNodeStatus :=
  (λ nodeName, default solr.emptyNodeStatus (nodeStatusMap acc !! nodeName))
    <$> sortStrings (nodeNames acc).

(** The status computed from the listed pods. *)
Definition cloudStatus (solrCloud : solr.SolrCloud) (pods : list Pod)
    (newStatus : solr.SolrCloudStatus) : outcome solr.SolrCloudStatus :=
  match scanPods solrCloud scan0 pods with
  | Panic => Panic
  | Ok acc =>
      match solr.Replicas (solr.scSpec solrCloud) with
      | None => Panic                   (* *solrCloud.Spec.Replicas *)
      | Some replicas =>
          let tag := solr.Tag (solr.SolrImage (solr.scSpec solrCloud)) in
          let backupRestoreReady :=
            if (backupRestoreReadyPods acc =? replicas)
               && (0 <? backupRestoreReadyPods acc)
            then true else solr.BackupRestoreReady newStatus in
          let '(targetVersion, version) :=
            match otherVersions acc with
            | v :: _ => (tag, v)
            | [] => ("", tag)
            end in
          let externalCommon :=
            match solr.External (solr.scSpec solrCloud) with
            | Some ext =>
                if negb (solr.HideCommon ext)
                then Some ("http://" +:+
                           ExternalCommonUrl solrCloud
                             (solr.DomainName ext) true)
                else solr.ExternalCommonAddress newStatus
            | None => solr.ExternalCommonAddress newStatus
            end in
          Ok (setCloudStatus newStatus (solrNodes acc) backupRestoreReady
                version targetVersion
                ("http://" +:+ InternalCommonUrl solrCloud true)
                externalCommon)
      end
  end.

End Status.

Section Reconciler.
Context `{SolrAPI} `{UtilPkg} `{Client W}.
Variable cfg : Settings.

(** [requeueOrNot := reconcile.Result{}] *)
Definition requeueOrNot : Result := {| Requeue := false |}.

(** *** [reconcileCloudStatus] *)
Definition reconcileCloudStatus (solrCloud : solr.SolrCloud)
    (newStatus : solr.SolrCloudStatus)
    : M W (option error * solr.SolrCloudStatus) :=
  let selectorLabels :=
    <["technology" := SolrTechnologyLabel]> (CloudSharedLabels solrCloud) in
  r ← List_ (Namespace (solr.scMeta solrCloud)) selectorLabels;
  match r with
  | inl err => mret (Some err, newStatus)
  | inr pods =>
      match cloudStatus solrCloud pods newStatus with
      | Ok newStatus' => mret (None, newStatus')
      | Panic => panic
      end
  end.

(** *** [reconcileNodeService] *)
Definition reconcileNodeService (instance : solr.SolrCloud)
    (nodeName : string) : M W (option error * string) :=
  match SetControllerReference instance KService
          (GenerateNodeService instance nodeName) with
  | inl err => mret (Some err, "")
  | inr service =>
      r ← Get KService (keyOf (svcMeta service));
      match r with
      | inl err =>
          if IsNotFound err
          then c ← Create KService service; mret (errOf c, "")
          else mret (Some err, "")
      | inr foundService =>
          let '(changed, foundService) :=
            CopyServiceFields service foundService in
          if changed
          then u ← Update KService foundService;
               mret (errOf u, svcClusterIP (written foundService u))
          else mret (None, svcClusterIP foundService)
      end
  end.

(** *** [reconcileZk] *)

(** The [i]-th entry of the internal connection string,
    ["%s-%d.%s-headless.%s:%d"]. *)
Definition zkEntry (foundZkCluster : ZookeeperCluster) (i : Z) : string :=
  Name (zkMeta foundZkCluster) +:+ "-" +:+ Itoa i +:+ "." +:+
  Name (zkMeta foundZkCluster) +:+ "-headless." +:+
  Namespace (zkMeta foundZkCluster) +:+ ":" +:+
  Itoa (ZookeeperPortsClient foundZkCluster).

Definition reconcileZk (instance : solr.SolrCloud)
    (busyBoxImage : solr.ContainerImage)
    (newStatus : solr.SolrCloudStatus)
    : M W (option error * solr.SolrCloudStatus) :=
  let zkRef := solr.ZookeeperRef_ (solr.scSpec instance) in
  match solr.ConnectionInfo zkRef, solr.ProvidedZookeeper_ zkRef with
  | Some connectionInfo, _ =>
      mret (None, setZookeeperConnectionInfo newStatus connectionInfo)
  | None, Some pzk =>
      if negb (useZkCRD cfg) then
        mret (Some (NewBadRequest
          "Cannot create a Zookeeper Cluster, as the Solr Operator is not configured to use the Zookeeper CRD"),
          newStatus)
      else
        match SetControllerReference instance KZookeeperCluster
                (GenerateZookeeperCluster instance pzk) with
        | inl err => mret (Some err, newStatus)
        | inr zkCluster =>
            r ← Get KZookeeperCluster (keyOf (zkMeta zkCluster));
            match r with
            | inl err =>
                if IsNotFound err
                then c ← Create KZookeeperCluster zkCluster;
                     mret (errOf c, newStatus)
                else mret (Some err, newStatus)
            | inr foundZkCluster =>
                let '(changed, foundZkCluster) :=
                  CopyZookeeperClusterFields zkCluster foundZkCluster in
                '(err, foundZkCluster) ←
                  (if changed
                   then u ← Update KZookeeperCluster foundZkCluster;
                        mret (errOf u, written foundZkCluster u)
                   else mret (None, foundZkCluster));
                let external :=
                  if util.eqs "" (zkExternalClientEndpoint foundZkCluster)
                  then None
                  else Some (zkExternalClientEndpoint foundZkCluster) in
                if zkSpecReplicas zkCluster <? 0 then panic  (* make *)
                else
                  let internal :=
                    zkEntry foundZkCluster
                      <$> seqZ 0 (zkSpecReplicas zkCluster) in
                  mret (err, setZookeeperConnectionInfo newStatus
                    {| solr.InternalConnectionString := Join internal ",";
                       solr.ExternalConnectionString := external;
                       solr.ChRoot := solr.pzkChRoot pzk |})
            end
        end
  | None, None =>
      mret (Some (NewBadRequest
                    "No Zookeeper reference information provided."),
            newStatus)
  end.

(** *** The steps of [Reconcile], in the order of the source *)

(** Fetch the SolrCloud instance and set its defaults. *)
Definition fetchInstance (req : NamespacedName)
    : M W (exit + solr.SolrCloud) :=
  r ← Get KSolrCloud req;
  match r with
  | inl err =>
      if IsNotFound err
      then mret (inl ({| Requeue := false |}, None))
      else mret (inl ({| Requeue := false |}, Some err))
  | inr instance =>
      let '(changed, instance) :=
        WithDefaults (IngressBaseUrl cfg) instance in
      if changed then
        u ← Update KSolrCloud instance;
        match u with
        | inl err => mret (inl ({| Requeue := false |}, Some err))
        | inr _ => mret (inl ({| Requeue := true |}, None))
        end
      else mret (inr instance)
  end.

(** [busyBoxImage := *instance.Spec.BusyBoxImage] and [reconcileZk]. *)
Definition resolveZk (instance : solr.SolrCloud)
    : M W (exit + solr.SolrCloudStatus) :=
  match solr.BusyBoxImage (solr.scSpec instance) with
  | None => panic
  | Some busyBoxImage =>
      '(err, newStatus) ←
        reconcileZk instance busyBoxImage solr.emptyStatus;
      match err with
      | Some err => mret (inl (requeueOrNot, Some err))
      | None => mret (inr newStatus)
      end
  end.

(** Generate Common Service.  The error of its [Create] or [Update] is
    left in [err] and overwritten by the next [Get]. *)
Definition reconcileCommonService (instance : solr.SolrCloud)
    : M W (exit + unit) :=
  match SetControllerReference instance KService
          (GenerateCommonService instance) with
  | inl err => mret (inl (requeueOrNot, Some err))
  | inr commonService =>
      r ← Get KService (keyOf (svcMeta commonService));
      match r with
      | inl err =>
          if IsNotFound err
          then _ ← Create KService commonService; mret (inr ())
          else mret (inl (requeueOrNot, Some err))
      | inr foundCommonService =>
          let '(changed, foundCommonService) :=
            CopyServiceFields commonService foundCommonService in
          if changed
          then _ ← Update KService foundCommonService; mret (inr ())
          else mret (inr ())
      end
  end.

(** Generate a service for every Node: the loop over [solrNodeNames],
    carrying [blockReconciliationOfStatefulSet] and [hostNameIpMap]. *)
Fixpoint reconcileNodeServices (instance : solr.SolrCloud)
    (nodeNames : list string) (block : bool) (hostNameIpMap : labelmap)
    : M W (exit + bool * labelmap) :=
  match nodeNames with
  | [] => mret (inr (block, hostNameIpMap))
  | nodeName :: rest =>
      '(err, ip) ← reconcileNodeService instance nodeName;
      match err with
      | Some err => mret (inl (requeueOrNot, Some err))
      | None =>
          match solr.External (solr.scSpec instance) with
          | None => panic    (* External.UseExternalAddress on nil *)
          | Some ext =>
              if solr.UseExternalAddress ext then
                if util.eqs ip ""
                then reconcileNodeServices instance rest true hostNameIpMap
                else reconcileNodeServices instance rest block
                       (<[AdvertisedNodeHost instance nodeName := ip]>
                          hostNameIpMap)
              else reconcileNodeServices instance rest block hostNameIpMap
          end
      end
  end.

Definition reconcileAllNodeServices (instance : solr.SolrCloud)
    (solrNodeNames : list string) : M W (exit + bool * labelmap) :=
  if UsesIndividualNodeServices instance
  then reconcileNodeServices instance solrNodeNames false ∅
  else mret (inr (false, ∅)).

(** Generate HeadlessService. *)
Definition reconcileHeadlessService (instance : solr.SolrCloud)
    : M W (exit + unit) :=
  if UsesHeadlessService instance then
    match SetControllerReference instance KService
            (GenerateHeadlessService instance) with
    | inl err => mret (inl (requeueOrNot, Some err))
    | inr headless =>
        r ← Get KService (keyOf (svcMeta headless));
        err ←
          match r with
          | inl err =>
              if IsNotFound err
              then c ← Create KService headless; mret (errOf c)
              else mret (Some err)
          | inr foundHeadless =>
              let '(changed, foundHeadless) :=
                CopyServiceFields headless foundHeadless in
              if changed
              then u ← Update KService foundHeadless; mret (errOf u)
              else mret None
          end;
        match err with
        | Some err => mret (inl (requeueOrNot, Some err))
        | None => mret (inr ())
        end
    end
  else mret (inr ()).

(** Generate ConfigMap. *)
Definition reconcileConfigMap (instance : solr.SolrCloud)
    : M W (exit + unit) :=
  match SetControllerReference instance KConfigMap
          (GenerateConfigMap instance) with
  | inl err => mret (inl (requeueOrNot, Some err))
  | inr configMap =>
      r ← Get KConfigMap (keyOf (cmMeta configMap));
      err ←
        match r with
        | inl err =>
            if IsNotFound err
            then c ← Create KConfigMap configMap; mret (errOf c)
            else mret (Some err)
        | inr foundConfigMap =>
            let '(changed, foundConfigMap) :=
              CopyConfigMapFields configMap foundConfigMap in
            if changed
            then u ← Update KConfigMap foundConfigMap; mret (errOf u)
            else mret None
        end;
      match err with
      | Some err => mret (inl (requeueOrNot, Some err))
      | None => mret (inr ())
      end
  end.

(** Only create stateful set if zkConnectionString can be found, and no
    node service is still waiting for its address. *)
Definition reconcileStatefulSet (instance : solr.SolrCloud)
    (newStatus : solr.SolrCloudStatus) (hostNameIpMap : labelmap)
    (blockReconciliationOfStatefulSet : bool)
    : M W (exit + solr.SolrCloudStatus) :=
  let blockReconciliationOfStatefulSet :=
    if negb (Contains (ZkConnectionString newStatus) ":")
    then true else blockReconciliationOfStatefulSet in
  if negb blockReconciliationOfStatefulSet then
    match SetControllerReference instance KStatefulSet
            (GenerateStatefulSet instance newStatus hostNameIpMap) with
    | inl err => mret (inl (requeueOrNot, Some err))
    | inr statefulSet =>
        r ← Get KStatefulSet (keyOf (stsMeta statefulSet));
        '(err, newStatus) ←
          match r with
          | inl err =>
              if IsNotFound err
              then c ← Create KStatefulSet statefulSet;
                   mret (errOf c, newStatus)
              else mret (Some err, newStatus)
          | inr foundStatefulSet =>
              let '(changed, foundStatefulSet) :=
                CopyStatefulSetFields statefulSet foundStatefulSet in
              '(err, foundStatefulSet) ←
                (if changed
                 then u ← Update KStatefulSet foundStatefulSet;
                      mret (errOf u, written foundStatefulSet u)
                 else mret (None, foundStatefulSet));
              mret (err, setReplicas newStatus
                           (stsStatusReplicas foundStatefulSet)
                           (stsStatusReadyReplicas foundStatefulSet))
          end;
        match err with
        | Some err => mret (inl (requeueOrNot, Some err))
        | None => mret (inr newStatus)
        end
    end
  else mret (inr newStatus).

(** [reconcileCloudStatus] as called from [Reconcile]. *)
Definition recomputeStatus (instance : solr.SolrCloud)
    (newStatus : solr.SolrCloudStatus)
    : M W (exit + solr.SolrCloudStatus) :=
  '(err, newStatus) ← reconcileCloudStatus instance newStatus;
  match err with
  | Some err => mret (inl (requeueOrNot, Some err))
  | None => mret (inr newStatus)
  end.

(** Generate Ingress. *)
Definition reconcileIngress (instance : solr.SolrCloud)
    (solrNodeNames : list string) : M W (exit + unit) :=
  match solr.External (solr.scSpec instance) with
  | Some extAddressabilityOpts =>
      if util.eqs (solr.Method extAddressabilityOpts) IngressMethod then
          match SetControllerReference instance KIngress
                  (GenerateIngress instance solrNodeNames
                     (IngressBaseUrl cfg)) with
          | inl err => mret (inl (requeueOrNot, Some err))
          | inr ingress =>
              r ← Get KIngress (keyOf (ingMeta ingress));
              err ←
                match r with
                | inl err =>
                    if IsNotFound err
                    then c ← Create KIngress ingress; mret (errOf c)
                    else mret (Some err)
                | inr foundIngress =>
                    let '(changed, foundIngress) :=
                      CopyIngressFields ingress foundIngress in
                    if changed
                    then u ← Update KIngress foundIngress; mret (errOf u)
                    else mret None
                end;
              match err with
              | Some err => mret (inl (requeueOrNot, Some err))
              | None => mret (inr ())
              end
          end
      else mret (inr ())
  | None => mret (inr ())
  end.

(** Write the status if it changed. *)
Definition persistStatus (instance : solr.SolrCloud)
    (newStatus : solr.SolrCloudStatus) : M W (exit + unit) :=
  if negb (DeepEqual (solr.scStatus instance) newStatus) then
    u ← StatusUpdate (setStatus instance newStatus);
    match u with
    | inl err => mret (inl (requeueOrNot, Some err))
    | inr _ => mret (inr ())
    end
  else mret (inr ()).

(** The pass once the instance is fetched and the Zookeeper reference is
    resolved into [newStatus]. *)
Definition reconcileResources (instance : solr.SolrCloud)
    (newStatus : solr.SolrCloudStatus) : M W (exit + unit) :=
  _ ⇐ reconcileCommonService instance;
  let solrNodeNames := GetAllSolrNodeNames instance in
  '(blockReconciliationOfStatefulSet, hostNameIpMap) ⇐
    reconcileAllNodeServices instance solrNodeNames;
  _ ⇐ reconcileHeadlessService instance;
  _ ⇐ reconcileConfigMap instance;
  newStatus ⇐ reconcileStatefulSet instance newStatus hostNameIpMap
                blockReconciliationOfStatefulSet;
  newStatus ⇐ recomputeStatus instance newStatus;
  _ ⇐ reconcileIngress instance solrNodeNames;
  persistStatus instance newStatus.

(** *** [Reconcile] *)
Definition Reconcile (req : NamespacedName) : M W exit :=
  r ← (instance ⇐ fetchInstance req;
       newStatus ⇐ resolveZk instance;
       reconcileResources instance newStatus);
  match r with
  | inl returned => mret returned
  | inr () => mret (requeueOrNot, None)
  end.

End Reconciler.

End controllers.

(** ** A sample platform

    An in-memory API server and simple instances of the interfaces above, on
    which the reconciler can be run on concrete objects. *)

Module sample.

Import controllers.

Global Instance NamespacedName_eq_dec : EqDecision NamespacedName.
Proof. solve_decision. Defined.

Record Cluster := {
  clouds : list solr.SolrCloud;
  services : list Service;
  configMaps : list ConfigMap;
  statefulSets : list StatefulSet;
  ingresses : list Ingress;
  zookeepers : list ZookeeperCluster;
  pods : list Pod;
}.

Definition store (k : Kind) : Cluster → list (obj k) :=
  match k with
  | KSolrCloud => clouds
  | KService => services
  | KConfigMap => configMaps
  | KStatefulSet => statefulSets
  | KIngress => ingresses
  | KZookeeperCluster => zookeepers
  end.

Definition setStore (k : Kind) : list (obj k) → Cluster → Cluster :=
  match k with
  | KSolrCloud => λ l c,
      {| clouds := l; services := services c; configMaps := configMaps c;
         statefulSets := statefulSets c; ingresses := ingresses c;
         zookeepers := zookeepers c; pods := pods c |}
  | KService => λ l c,
      {| clouds := clouds c; services := l; configMaps := configMaps c;
         statefulSets := statefulSets c; ingresses := ingresses c;
         zookeepers := zookeepers c; pods := pods c |}
  | KConfigMap => λ l c,
      {| clouds := clouds c; services := services c; configMaps := l;
         statefulSets := statefulSets c; ingresses := ingresses c;
         zookeepers := zookeepers c; pods := pods c |}
  | KStatefulSet => λ l c,
      {| clouds := clouds c; services := services c;
         configMaps := configMaps c; statefulSets := l;
         ingresses := ingresses c; zookeepers := zookeepers c;
         pods := pods c |}
  | KIngress => λ l c,
      {| clouds := clouds c; services := services c;
         configMaps := configMaps c; statefulSets := statefulSets c;
         ingresses := l; zookeepers := zookeepers c; pods := pods c |}
  | KZookeeperCluster => λ l c,
      {| clouds := clouds c; services := services c;
         configMaps := configMaps c; statefulSets := statefulSets c;
         ingresses := ingresses c; zookeepers := l; pods := pods c |}
  end.

Definition metaOf (k : Kind) : obj k → ObjectMeta :=
  match k with
  | KSolrCloud => solr.scMeta
  | KService => svcMeta
  | KConfigMap => cmMeta
  | KStatefulSet => stsMeta
  | KIngress => ingMeta
  | KZookeeperCluster => zkMeta
  end.

Definition named (k : Kind) (key : NamespacedName) (o : obj k) : bool :=
  bool_decide (keyOf (metaOf k o) = key).

Definition notFound : error :=
  {| errors.Reason := errors.StatusReasonNotFound;
     errors.Message := "not found" |}.

Definition serverError : error :=
  {| errors.Reason := errors.StatusReasonOther "InternalError";
     errors.Message := "internal error" |}.

Definition get (k : Kind) (key : NamespacedName) (c : Cluster)
    : (error + obj k) * Cluster :=
  match find (named k key) (store k c) with
  | Some o => (inr o, c)
  | None => (inl notFound, c)
  end.

Definition create (k : Kind) (o : obj k) (c : Cluster)
    : (error + obj k) * Cluster :=
  (inr o, setStore k (store k c ++ [o]) c).

Definition update (k : Kind) (o : obj k) (c : Cluster)
    : (error + obj k) * Cluster :=
  let key := keyOf (metaOf k o) in
  if existsb (named k key) (store k c)
  then (inr o,
        setStore k
          ((λ o', if named k key o' then o else o') <$> store k c) c)
  else (inl notFound, c).

(** Pods are listed by namespace, in the order they are stored. *)
Definition listPods (namespace : string) (selector : labelmap)
    (c : Cluster) : (error + list Pod) * Cluster :=
  (inr (filter (λ p, Namespace (podMeta p) = namespace) (pods c)), c).

Global Instance cluster_client : Client Cluster := {|
  clientGet := get;
  clientCreate := create;
  clientUpdate := update;
  clientStatusUpdate := update KSolrCloud;
  clientList := listPods;
  SetControllerReference := λ _ _ o, inr o;
|}.

(** The text after the first [sep] of [s], if any. *)
Fixpoint after (sep : ascii) (s : string) : option string :=
  match s with
  | EmptyString => None
  | String a s' => if bool_decide (a = sep) then Some s' else after sep s'
  end.

Definition nodeName (sc : solr.SolrCloud) (i : Z) : string :=
  Name (solr.scMeta sc) +:+ "-solrcloud-" +:+ Itoa i.

Definition individual (sc : solr.SolrCloud) : bool :=
  match solr.External (solr.scSpec sc) with
  | Some ext => negb (util.eqs (solr.Method ext) "Ingress")
  | None => false
  end.

Global Instance api : SolrAPI := {|
  ToImageName := λ c, solr.Repository c +:+ ":" +:+ solr.Tag c;
  ImageVersion := λ image, default "" (after ":" image);
  ZkConnectionString := λ s,
    solr.InternalConnectionString (solr.ZookeeperConnectionInfo_ s)
    +:+ solr.ChRoot (solr.ZookeeperConnectionInfo_ s);
  WithDefaults := λ _ sc, (false, sc);
  GetAllSolrNodeNames := λ sc,
    nodeName sc <$> seqZ 0 (default 0 (solr.Replicas (solr.scSpec sc)));
  UsesIndividualNodeServices := individual;
  UsesHeadlessService := λ sc, negb (individual sc);
  AdvertisedNodeHost := λ sc name, name +:+ "." +:+ Namespace (solr.scMeta sc);
  CloudSharedLabels := λ sc, {[ "solr-cloud" := Name (solr.scMeta sc) ]};
  InternalNodeUrl := λ sc name _, name +:+ "." +:+ Namespace (solr.scMeta sc);
  ExternalNodeUrl := λ sc name domain _, name +:+ "." +:+ domain;
  InternalCommonUrl := λ sc _,
    Name (solr.scMeta sc) +:+ "-solrcloud-common";
  ExternalCommonUrl := λ sc domain _,
    Name (solr.scMeta sc) +:+ "-solrcloud." +:+ domain;
  ZookeeperPortsClient := λ _, 2181;
  SolrTechnologyLabel := "solr-cloud";
  IngressMethod := "Ingress";
|}.

Definition metaFor (sc : solr.SolrCloud) (suffix : string) : ObjectMeta :=
  {| Name := Name (solr.scMeta sc) +:+ suffix;
     Namespace := Namespace (solr.scMeta sc);
     Labels := Some (CloudSharedLabels sc);
     Annotations := None |}.

Definition serviceFor (sc : solr.SolrCloud) (name : string) : Service :=
  {| svcMeta := {| Name := name; Namespace := Namespace (solr.scMeta sc);
                   Labels := Some (CloudSharedLabels sc);
                   Annotations := None |};
     svcClusterIP := "";
     svcSelector := CloudSharedLabels sc |}.

Definition template (sc : solr.SolrCloud) (hosts : labelmap)
    : PodTemplateSpec :=
  {| ptLabels := hosts;
     ptSpec := {| psNodeName := "";
                  psTerminationGracePeriodSeconds := None;
                  psFSGroup := None; psVolumes := None;
                  psContainers := []; psImagePullSecrets := None;
                  psAffinity := None |} |}.

(** The copy functions keep what the server assigned ([ClusterIP], the
    workload's status) and take the rest from the generated object. *)
Global Instance pkg : UtilPkg := {|
  GenerateCommonService := λ sc,
    serviceFor sc (Name (solr.scMeta sc) +:+ "-solrcloud-common");
  GenerateNodeService := λ sc name, serviceFor sc name;
  GenerateHeadlessService := λ sc,
    serviceFor sc (Name (solr.scMeta sc) +:+ "-solrcloud-headless");
  GenerateConfigMap := λ sc,
    {| cmMeta := metaFor sc "-solrcloud-configmap"; cmData := None |};
  GenerateStatefulSet := λ sc st hosts,
    {| stsMeta := metaFor sc "-solrcloud"; stsTemplate := template sc hosts;
       stsStatusReplicas := 0; stsStatusReadyReplicas := 0 |};
  GenerateIngress := λ sc names base,
    {| ingMeta := metaFor sc "-solrcloud-common";
       ingHosts := (λ n, n +:+ "." +:+ base) <$> names |};
  GenerateZookeeperCluster := λ sc pzk,
    {| zkMeta := metaFor sc "-solrcloud-zookeeper";
       zkSpecReplicas := default 3 (solr.pzkReplicas pzk);
       zkSpecPorts := []; zkExternalClientEndpoint := "" |};
  CopyServiceFields := λ from to,
    (negb (bool_decide (svcSelector from = svcSelector to)),
     {| svcMeta := svcMeta to; svcClusterIP := svcClusterIP to;
        svcSelector := svcSelector from |});
  CopyConfigMapFields := λ from to,
    (negb (bool_decide (cmData from = cmData to)),
     {| cmMeta := cmMeta to; cmData := cmData from |});
  CopyStatefulSetFields := λ from to,
    (negb (bool_decide (ptLabels (stsTemplate from)
                        = ptLabels (stsTemplate to))),
     {| stsMeta := stsMeta to; stsTemplate := stsTemplate from;
        stsStatusReplicas := stsStatusReplicas to;
        stsStatusReadyReplicas := stsStatusReadyReplicas to |});
  CopyIngressFields := λ from to,
    (negb (bool_decide (ingHosts from = ingHosts to)),
     {| ingMeta := ingMeta to; ingHosts := ingHosts from |});
  CopyZookeeperClusterFields := λ from to,
    (negb (bool_decide (zkSpecReplicas from = zkSpecReplicas to)),
     {| zkMeta := zkMeta to; zkSpecReplicas := zkSpecReplicas from;
        zkSpecPorts := zkSpecPorts to;
        zkExternalClientEndpoint := zkExternalClientEndpoint to |});
  BackupRestoreVolume := "backup-restore";
|}.

End sample.

(** ** Sample objects *)

Module exporter_example.
Import util.

Definition exporter : solr.SolrPrometheusExporter :=
  {| solr.speMeta := {| Name := "metrics"; Namespace := "search";
                        Labels := None; Annotations := None |};
     solr.speSpec :=
       {| solr.speSolrReference :=
            {| solr.Cloud := None; solr.Standalone := None |};
          solr.Image := Some {| solr.Repository := "library/solr";
                                solr.Tag := "8.2.0";
                                solr.PullPolicy := "IfNotPresent";
                                solr.ImagePullSecret := "" |};
          solr.CustomPrometheusKubeOptions_ :=
            {| solr.PodOptions_ := None;
               solr.DeploymentOptions := None;
               solr.ConfigMapOptions := None |};
          solr.ExporterEntrypoint := "";
          solr.NumThreads := 1;
          solr.ScrapeInterval := 60;
          solr.Config := "" |};
     solr.speStatus := {| solr.speReady := false |} |}.

Definition connection : SolrConnectionInfo :=
  {| CloudZkConnnectionString := "zk-0.zk-headless.search:2181/solr";
     StandaloneAddress := "" |}.
End exporter_example.

Module cloud_example.

Definition image (tag : string) : solr.ContainerImage :=
  {| solr.Repository := "library/solr"; solr.Tag := tag;
     solr.PullPolicy := "IfNotPresent"; solr.ImagePullSecret := "" |}.

Definition backupVolume : Volume :=
  {| volName := "backup-restore"; volConfigMap := None |}.

Definition dataVolume : Volume :=
  {| volName := "data"; volConfigMap := None |}.

(** A SolrCloud named [demo] in namespace [search] with target tag [v2]. *)
Definition mkCloud (replicas : option Z) (zkRef : solr.ZookeeperRef)
    (backup : option Volume) (ext : option solr.ExternalAddressability)
    (status : solr.SolrCloudStatus) : solr.SolrCloud :=
  {| solr.scMeta := {| Name := "demo"; Namespace := "search";
                       Labels := None; Annotations := None |};
     solr.scSpec :=
       {| solr.Replicas := replicas;
          solr.ZookeeperRef_ := zkRef;
          solr.SolrImage := image "v2";
          solr.BusyBoxImage := Some (image "1.28");
          solr.BackupRestoreVolume := backup;
          solr.External := ext |};
     solr.scStatus := status |}.

Definition externalZk (connection : string) : solr.ZookeeperRef :=
  {| solr.ConnectionInfo := Some
       {| solr.InternalConnectionString := connection;
          solr.ExternalConnectionString := None;
          solr.ChRoot := "/" |};
     solr.ProvidedZookeeper_ := None |}.

Definition providedZk (replicas : Z) : solr.ZookeeperRef :=
  {| solr.ConnectionInfo := None;
     solr.ProvidedZookeeper_ := Some
       {| solr.pzkChRoot := "/solr"; solr.pzkReplicas := Some replicas |} |}.

Definition cloud : solr.SolrCloud :=
  mkCloud (Some 3) (externalZk "zk.example.com:2181") (Some backupVolume)
    None solr.emptyStatus.

(** A pod of [demo] running one ready container of the given tag. *)
Definition mkPod (name tag : string) (volumes : list Volume) : Pod :=
  {| podMeta := {| Name := name; Namespace := "search";
                   Labels := None; Annotations := None |};
     podSpec :=
       {| psNodeName := "worker-1";
          psTerminationGracePeriodSeconds := None;
          psFSGroup := None;
          psVolumes := Some volumes;
          psContainers :=
            [ {| ctName := "solrcloud-node";
                 ctImage := "library/solr:" +:+ tag;
                 ctImagePullPolicy := "IfNotPresent";
                 ctPorts := []; ctVolumeMounts := None; ctCommand := [];
                 ctArgs := []; ctLivenessProbe := None;
                 ctResources := noResources |} ];
          psImagePullSecrets := None;
          psAffinity := None |};
     podContainerStatuses :=
       [ {| csName := "solrcloud-node"; csReady := true |} ] |}.

Definition emptyCluster : sample.Cluster :=
  {| sample.clouds := []; sample.services := []; sample.configMaps := [];
     sample.statefulSets := []; sample.ingresses := [];
     sample.zookeepers := []; sample.pods := [] |}.

Definition settings : Settings :=
  {| useZkCRD := true; IngressBaseUrl := "example.com" |}.

Definition request : NamespacedName :=
  {| nnNamespace := "search"; nnName := "demo" |}.

(** A cloud whose connection string names no port yet. *)
Definition pendingCloud : solr.SolrCloud :=
  mkCloud (Some 3) (externalZk "zk-pending") None None solr.emptyStatus.

Definition pendingCluster : sample.Cluster :=
  {| sample.clouds := [pendingCloud]; sample.services := [];
     sample.configMaps := []; sample.statefulSets := [];
     sample.ingresses := []; sample.zookeepers := []; sample.pods := [] |}.

(** Both a connection info and a provision request, and neither. *)
Definition bothZk : solr.ZookeeperRef :=
  {| solr.ConnectionInfo := solr.ConnectionInfo (externalZk "zk.example.com:2181");
     solr.ProvidedZookeeper_ := solr.ProvidedZookeeper_ (providedZk 3) |}.

Definition neitherZk : solr.ZookeeperRef :=
  {| solr.ConnectionInfo := None; solr.ProvidedZookeeper_ := None |}.

Definition cloudWith (zkRef : solr.ZookeeperRef) : solr.SolrCloud :=
  mkCloud (Some 3) zkRef None None solr.emptyStatus.

(** A cluster in which the Zookeeper cluster of [demo] exists, with one
    replica and no external endpoint yet. *)
Definition zkCluster : sample.Cluster :=
  {| sample.clouds := []; sample.services := []; sample.configMaps := [];
     sample.statefulSets := []; sample.ingresses := [];
     sample.zookeepers :=
       [ {| zkMeta := {| Name := "demo-solrcloud-zookeeper";
                         Namespace := "search"; Labels := None;
                         Annotations := None |};
            zkSpecReplicas := 1; zkSpecPorts := [];
            zkExternalClientEndpoint := "" |} ];
     sample.pods := [] |}.

(** A cloud that advertises external addresses through a service per node,
    and a cluster in which the service of its first node has no address yet
    while that of its second node has one. *)
Definition external : solr.ExternalAddressability :=
  {| solr.Method := "ExternalDNS"; solr.UseExternalAddress := true;
     solr.HideCommon := false; solr.HideNodes := false;
     solr.DomainName := "example.com" |}.

Definition externalCloud : solr.SolrCloud :=
  mkCloud (Some 2) (externalZk "zk.example.com:2181") None (Some external)
    solr.emptyStatus.

Definition nodeService (name ip : string) : Service :=
  {| svcMeta := {| Name := name; Namespace := "search";
                   Labels := None; Annotations := None |};
     svcClusterIP := ip;
     svcSelector := CloudSharedLabels externalCloud |}.

Definition servicesCluster : sample.Cluster :=
  {| sample.clouds := [externalCloud];
     sample.services := [nodeService "demo-solrcloud-0" "";
                         nodeService "demo-solrcloud-1" "10.0.0.7"];
     sample.configMaps := []; sample.statefulSets := [];
     sample.ingresses := []; sample.zookeepers := []; sample.pods := [] |}.

End cloud_example.

(** ** What the status is meant to report, stated on the pods *)

Section Reading.
Context `{SolrAPI} `{UtilPkg}.

(** The version a pod is observed running: the tag of the image of its
    first container, once it reports container statuses. *)
Definition runningVersion (p : Pod) : option string :=
  match podContainerStatuses p, psContainers (podSpec p) with
  | _ :: _, c :: _ => Some (ImageVersion (ctImage c))
  | _, _ => None
  end.

(** The version of a pod that runs something else than the target. *)
Definition divergentVersion (tag : string) (p : Pod) : option string :=
  match runningVersion p with
  | Some v => if bool_decide (v = tag) then None else Some v
  | None => None
  end.

(** The first version other than the target among the per-node statuses,
    which are in the order of the pod names. *)
Definition firstDivergentByName (tag : string)
    (nodes : list solr.SolrNodeStatus) : option string :=
  solr.nsVersion <$> find (λ n, negb (util.eqs (solr.nsVersion n) tag)) nodes.

(** The scan does not panic on the pod: a pod that reports container
    statuses has a container. *)
Definition scannable (p : Pod) : Prop :=
  podContainerStatuses p = [] ∨ psContainers (podSpec p) ≠ [].

(** The pod mounts the designated backup volume: the spec designates one,
    and the pod lists a volume of its name. *)
Definition mountsBackup (solrCloud : solr.SolrCloud) (p : Pod) : bool :=
  bool_decide (is_Some (solr.BackupRestoreVolume (solr.scSpec solrCloud)))
  && bool_decide (BackupRestoreVolume ∈
                    volName <$> default [] (psVolumes (podSpec p))).

(** Volume names are unique within the pod. *)
Definition distinctVolumes (p : Pod) : Prop :=
  NoDup (volName <$> default [] (psVolumes (podSpec p))).

(** The status of the node of a pod. *)
Definition nodeStatusOf (solrCloud : solr.SolrCloud) (p : Pod)
    : solr.SolrNodeStatus :=
  {| solr.nsName := Name (podMeta p);
     solr.nsNodeName := psNodeName (podSpec p);
     solr.nsInternalAddress :=
       "http://" +:+ InternalNodeUrl solrCloud (Name (podMeta p)) true;
     solr.nsExternalAddress :=
       controllers.externalNodeAddress solrCloud (Name (podMeta p));
     solr.nsReady :=
       match podContainerStatuses p with
       | [] => false
       | statuses => forallb csReady statuses
       end;
     solr.nsVersion := default "" (runningVersion p) |}.
Definition targetTag (solrCloud : solr.SolrCloud) : string :=
  solr.Tag (solr.SolrImage (solr.scSpec solrCloud)).

Definition podName (p : Pod) : string := Name (podMeta p).

(** [nodeStatusMap[nodeStatus.Name] = nodeStatus] *)
Definition insertNode (solrCloud : solr.SolrCloud)
    (m : gmap string solr.SolrNodeStatus) (p : Pod)
    : gmap string solr.SolrNodeStatus :=
  <[podName p := nodeStatusOf solrCloud p]> m.

(** The loop variables after a scan that does not panic. *)
Definition scanned (solrCloud : solr.SolrCloud) (acc : controllers.scan)
    (pods : list Pod) : controllers.scan :=
  {| controllers.otherVersions :=
       controllers.otherVersions acc
       ++ omap (divergentVersion (targetTag solrCloud)) pods;
     controllers.nodeNames := controllers.nodeNames acc ++ (podName <$> pods);
     controllers.nodeStatusMap :=
       foldl (insertNode solrCloud) (controllers.nodeStatusMap acc) pods;
     controllers.backupRestoreReadyPods :=
       controllers.backupRestoreReadyPods acc
       + foldr Z.add 0 (controllers.backupVolumes solrCloud <$> pods) |}.
End Reading.

(** ** The rule on the Zookeeper reference, as the specification words it *)

(** Exactly one of the connection info and the provision request is set. *)
Definition exactlyOne (zkRef : solr.ZookeeperRef) : bool :=
  xorb (bool_decide (is_Some (solr.ConnectionInfo zkRef)))
       (bool_decide (is_Some (solr.ProvidedZookeeper_ zkRef))).

(** The specification's condition for a bad request: the rule is violated,
    or provisioning is requested while the integration is disabled. *)
Definition specBadRequest (cfg : Settings) (zkRef : solr.ZookeeperRef)
    : bool :=
  negb (exactlyOne zkRef)
  || (bool_decide (is_Some (solr.ProvidedZookeeper_ zkRef))
      && negb (useZkCRD cfg)).

(** The condition of the code: no connection info, and either no provision
    request or the integration disabled. *)
Definition codeBadRequest (cfg : Settings) (zkRef : solr.ZookeeperRef)
    : bool :=
  match solr.ConnectionInfo zkRef, solr.ProvidedZookeeper_ zkRef with
  | Some _, _ => false
  | None, Some _ => negb (useZkCRD cfg)
  | None, None => true
  end.

(** A step answered a bad request. *)
Definition answersBadRequest {W A}
    (r : outcome (option error * A) * W * list Call) : bool :=
  match result r with
  | Ok (Some err, _) => errors.IsBadRequest err
  | _ => false
  end.

(** Neither the owner wiring nor the API server answers a bad request. *)
Definition noBadRequestFromPlatform (W : Type) `{Client W} : Prop :=
  (∀ owner k o err, SetControllerReference owner k o = inl err →
     errors.IsBadRequest err = false) ∧
  (∀ k key w err w', clientGet k key w = (inl err, w') →
     errors.IsBadRequest err = false) ∧
  (∀ k o w err w', clientCreate k o w = (inl err, w') →
     errors.IsBadRequest err = false) ∧
  (∀ k o w err w', clientUpdate k o w = (inl err, w') →
     errors.IsBadRequest err = false).

(** ** Readings of a pass *)

Section Pass.
Context `{SolrAPI} `{UtilPkg} `{Client W}.
Variable cfg : Settings.
Import controllers.

(** A create or an update of the StatefulSet. *)
Definition writesStatefulSet (c : Call) : bool :=
  match c with
  | CallCreate KStatefulSet _ | CallUpdate KStatefulSet _ => true
  | _ => false
  end.

Definition keepsStatefulSet (c : Call) : Prop := writesStatefulSet c = false.

(** Every request a computation sends satisfies [P]. *)
Definition sends {A} (P : Call → Prop) (m : M W A) : Prop :=
  ∀ w, Forall P (trace (m w)).

(** The status as [reconcileZk] leaves it, when the pass gets that far. *)
Definition resolved (req : NamespacedName) (w : W)
    : option solr.SolrCloudStatus :=
  match result ((instance ⇐ fetchInstance cfg req;
                 resolveZk cfg instance) w) with
  | Ok (inr newStatus) => Some newStatus
  | _ => None
  end.

(** The service of every node in turn, whatever address each one has: the
    traversal ends early only on an error of a node service. *)
Fixpoint reconcileEveryNode (instance : solr.SolrCloud)
    (nodeNames : list string) : M W (exit + list (string * string)) :=
  match nodeNames with
  | [] => mret (inr [])
  | nodeName :: rest =>
      '(err, ip) ← reconcileNodeService instance nodeName;
      match err with
      | Some err => mret (inl (requeueOrNot, Some err))
      | None =>
          ips ⇐ reconcileEveryNode instance rest;
          mret (inr ((nodeName, ip) :: ips))
      end
  end.

(** The flag and the host map that the addresses of the nodes amount to:
    the flag is raised by an empty address, and every other address is
    entered under the advertised host of its node. *)
Definition collectAddresses (instance : solr.SolrCloud) (block : bool)
    (hostNameIpMap : labelmap) (ips : list (string * string))
    : bool * labelmap :=
  (block || existsb (λ '(_, ip), util.eqs ip "") ips,
   foldl (λ m '(nodeName, ip),
            if util.eqs ip "" then m
            else <[AdvertisedNodeHost instance nodeName := ip]> m)
         hostNameIpMap ips).

End Pass.

(** ** The rest of [controllers/util/prometheus_exporter_util.go] *)

Module metrics.

(** [corev1.ServicePort] *)
Record ServicePort := {
  spName : string;
  spPort : Z;
  spProtocol : string;
  spTargetPort : Z;               (* intstr.FromInt *)
}.

(** [corev1.Service] with the fields the generator fills; the [Service] of
    the reconciler carries those the reconciler reads. *)
Record MetricsService := {
  msMeta : ObjectMeta;
  msPorts : list ServicePort;     (* Spec.Ports *)
  msSelector : labelmap;          (* Spec.Selector *)
}.

(** [extv1.IngressBackend] and [extv1.IngressRule] with its HTTP paths. *)
Record IngressBackend := {
  ibServiceName : string;
  ibServicePort : Z;              (* intstr.FromInt *)
}.

Record IngressRule := {
  irHost : string;
  irPaths : list IngressBackend;  (* HTTP.Paths[i].Backend *)
}.

(** [(sc *SolrPrometheusExporter) MetricsIngressPrefix] *)
Definition MetricsIngressPrefix (sc : solr.SolrPrometheusExporter) : string :=
  Namespace (solr.speMeta sc) +:+ "-" +:+ Name (solr.speMeta sc)
  +:+ "-solr-metrics".

(** [(sc *SolrPrometheusExporter) MetricsIngressUrl] *)
Definition MetricsIngressUrl (sc : solr.SolrPrometheusExporter)
    (ingressBaseUrl : string) : string :=
  MetricsIngressPrefix sc +:+ "." +:+ ingressBaseUrl.

(** [GenerateMetricsConfigMap] *)
Definition GenerateMetricsConfigMap
    (solrPrometheusExporter : solr.SolrPrometheusExporter) : ConfigMap :=
  let labels :=
    solr.SharedLabelsWith solrPrometheusExporter
      (Labels (solr.speMeta solrPrometheusExporter)) in
  {| cmMeta :=
       {| Name := solr.MetricsConfigMapName solrPrometheusExporter;
          Namespace := Namespace (solr.speMeta solrPrometheusExporter);
          Labels := Some labels;
          Annotations := None |};
     cmData := Some {[ "solr-prometheus-exporter.xml" :=
                         solr.Config (solr.speSpec solrPrometheusExporter) ]}
  |}.

Section Copy.
(** [CopyLabelsAndAnnotations] of package [util] lies in another file: it
    answers whether an update is needed together with the meta of [to] as it
    leaves it. *)
Variable CopyLabelsAndAnnotations : ObjectMeta → ObjectMeta → bool * ObjectMeta.

(** [CopyMetricsConfigMapFields]: the answer and [to] as the call leaves
    it.  [reflect.DeepEqual] on the two [Data] maps tells a nil map from an
    empty one, as equality of the modelled values does. *)
Definition CopyMetricsConfigMapFields (from to : ConfigMap)
    : bool * ConfigMap :=
  let '(requireUpdate, toMeta) :=
    CopyLabelsAndAnnotations (cmMeta from) (cmMeta to) in
  let requireUpdate :=
    if negb (bool_decide (cmData to = cmData from)) then true
    else requireUpdate in
  (requireUpdate, {| cmMeta := toMeta; cmData := cmData from |}).
End Copy.

(** [GenerateSolrMetricsService] *)
Definition GenerateSolrMetricsService
    (solrPrometheusExporter : solr.SolrPrometheusExporter)
    : MetricsService :=
  let labels :=
    <["service-type" := "metrics"]>
      (solr.SharedLabelsWith solrPrometheusExporter
         (Labels (solr.speMeta solrPrometheusExporter))) in
  let selectorLabels :=
    <["technology" := solr.SolrPrometheusExporterTechnologyLabel]>
      (solr.SharedLabels solrPrometheusExporter) in
  {| msMeta :=
       {| Name := solr.MetricsServiceName solrPrometheusExporter;
          Namespace := Namespace (solr.speMeta solrPrometheusExporter);
          Labels := Some labels;
          Annotations := Some
            (<["prometheus.io/scrape" := "true"]>
               (<["prometheus.io/scheme" := "http"]>
                  (<["prometheus.io/path" := "/metrics"]>
                     {[ "prometheus.io/port" :=
                          Itoa util.ExtSolrMetricsPort ]}))) |};
     msPorts := [ {| spName := util.ExtSolrMetricsPortName;
                     spPort := util.ExtSolrMetricsPort;
                     spProtocol := "TCP";
                     spTargetPort := util.SolrMetricsPort |} ];
     msSelector := selectorLabels |}.

(** [CreateMetricsIngressRule] *)
Definition CreateMetricsIngressRule
    (solrPrometheusExporter : solr.SolrPrometheusExporter)
    (ingressBaseDomain : string) : IngressRule :=
  let externalAddress :=
    MetricsIngressUrl solrPrometheusExporter ingressBaseDomain in
  {| irHost := externalAddress;
     irPaths :=
       [ {| ibServiceName := solr.MetricsServiceName solrPrometheusExporter;
            ibServicePort := util.ExtSolrMetricsPort |} ] |}.

End metrics.

(** ** Defaults of the exporter ([api/v1beta1]) *)

(** [ContainerImage.withDefaults] and [ZookeeperConnectionInfo.withDefaults]
    and the three default constants lie in other files of [api/v1beta1]:
    each [withDefaults] answers whether it changed its receiver, together
    with the receiver as it leaves it. *)
Class DefaultsAPI := {
  DefaultSolrRepo : string;
  DefaultSolrVersion : string;
  DefaultPullPolicy : string;
  imageWithDefaults :
    string → string → string → solr.ContainerImage
    → bool * solr.ContainerImage;
  zkInfoWithDefaults :
    solr.ZookeeperConnectionInfo → bool * solr.ZookeeperConnectionInfo;
}.

Module defaults.
Section Defaults.
Context `{DefaultsAPI}.

(** [solr.ContainerImage{}] *)
Definition emptyImage : solr.ContainerImage :=
  {| solr.Repository := ""; solr.Tag := ""; solr.PullPolicy := "";
     solr.ImagePullSecret := "" |}.

(** [(scr *SolrCloudReference) withDefaults] *)
Definition cloudReferenceWithDefaults (namespace : string)
    (scr : solr.SolrCloudReference) : bool * solr.SolrCloudReference :=
  let '(changed, ns) :=
    if negb (util.eqs (solr.scrName scr) "")
       && util.eqs (solr.scrNamespace scr) ""
    then (true, namespace) else (false, solr.scrNamespace scr) in
  match solr.scrZookeeperConnectionInfo scr with
  | Some info =>
      let '(zkChanged, info') := zkInfoWithDefaults info in
      (zkChanged || changed,
       {| solr.scrName := solr.scrName scr; solr.scrNamespace := ns;
          solr.scrZookeeperConnectionInfo := Some info' |})
  | None =>
      (changed,
       {| solr.scrName := solr.scrName scr; solr.scrNamespace := ns;
          solr.scrZookeeperConnectionInfo := None |})
  end.

(** [(sr *SolrReference) withDefaults] *)
Definition referenceWithDefaults (namespace : string)
    (sr : solr.SolrReference) : bool * solr.SolrReference :=
  match solr.Cloud sr with
  | Some cloud =>
      let '(changed, cloud') := cloudReferenceWithDefaults namespace cloud in
      (changed, {| solr.Cloud := Some cloud';
                   solr.Standalone := solr.Standalone sr |})
  | None => (false, sr)
  end.

(** [(ps *SolrPrometheusExporterSpec) withDefaults] *)
Definition specWithDefaults (namespace : string)
    (ps : solr.SolrPrometheusExporterSpec)
    : bool * solr.SolrPrometheusExporterSpec :=
  let '(changed, reference) :=
    referenceWithDefaults namespace (solr.speSolrReference ps) in
  let image := default emptyImage (solr.Image ps) in
  let '(imageChanged, image) :=
    imageWithDefaults DefaultSolrRepo DefaultSolrVersion DefaultPullPolicy
      image in
  let changed := imageChanged || changed in
  let '(changed, numThreads) :=
    if solr.NumThreads ps =? 0 then (true, 1) else (changed, solr.NumThreads ps)
  in
  (changed,
   {| solr.speSolrReference := reference;
      solr.Image := Some image;
      solr.CustomPrometheusKubeOptions_ := solr.CustomPrometheusKubeOptions_ ps;
      solr.ExporterEntrypoint := solr.ExporterEntrypoint ps;
      solr.NumThreads := numThreads;
      solr.ScrapeInterval := solr.ScrapeInterval ps;
      solr.Config := solr.Config ps |}).

(** [(spe *SolrPrometheusExporter) WithDefaults] *)
Definition exporterWithDefaults (spe : solr.SolrPrometheusExporter)
    : bool * solr.SolrPrometheusExporter :=
  let '(changed, spec) :=
    specWithDefaults (Namespace (solr.speMeta spe)) (solr.speSpec spe) in
  (changed, {| solr.speMeta := solr.speMeta spe; solr.speSpec := spec;
               solr.speStatus := solr.speStatus spe |}).

End Defaults.
End defaults.

(** ** The registration of the controller *)

Module setup.

(** [UseZkCRD] and [SetIngressBaseUrl] assign the process-wide settings. *)
Definition UseZkCRD (useCRD : bool) (cfg : Settings) : Settings :=
  {| useZkCRD := useCRD; IngressBaseUrl := IngressBaseUrl cfg |}.

Definition SetIngressBaseUrl (ingressBaseUrl : string) (cfg : Settings)
    : Settings :=
  {| useZkCRD := useZkCRD cfg; IngressBaseUrl := ingressBaseUrl |}.

(** The kinds named to the controller builder: those of the client, and the
    Deployment, which the reconciler never requests. *)
Inductive Watched :=
| OfKind (k : Kind)
| DeploymentKind.

(** [SetupWithManagerAndReconciler]: the kinds handed to [For] and [Owns],
    in the order of the calls. *)
Definition SetupWithManagerAndReconciler (cfg : Settings) : list Watched :=
  [OfKind KSolrCloud; OfKind KConfigMap; OfKind KStatefulSet;
   OfKind KService; OfKind KIngress; DeploymentKind]
  ++ (if useZkCRD cfg then [OfKind KZookeeperCluster] else []).

(** The kind a request writes, if it writes. *)
Definition written (c : Call) : option Kind :=
  match c with
  | CallCreate k _ | CallUpdate k _ => Some k
  | CallStatusUpdate _ => Some KSolrCloud
  | CallGet _ _ | CallList _ _ => None
  end.

(** The kind a request is about; pods are only listed. *)
Definition requested (c : Call) : option Kind :=
  match c with
  | CallGet k _ | CallCreate k _ | CallUpdate k _ => Some k
  | CallStatusUpdate _ => Some KSolrCloud
  | CallList _ _ => None
  end.

End setup.

(** ** More sample objects *)

Module exporter_samples.

(** An exporter with labels of its own, a config, and pod options. *)
Definition customized : solr.SolrPrometheusExporter :=
  {| solr.speMeta :=
       {| Name := "metrics"; Namespace := "search";
          Labels := Some (<["technology" := "mine"]> {[ "team" := "search" ]});
          Annotations := None |};
     solr.speSpec :=
       {| solr.speSolrReference :=
            {| solr.Cloud := Some {| solr.scrName := "demo";
                                     solr.scrNamespace := "";
                                     solr.scrZookeeperConnectionInfo := None |};
               solr.Standalone := None |};
          solr.Image := Some {| solr.Repository := "library/solr";
                                solr.Tag := "8.2.0";
                                solr.PullPolicy := "IfNotPresent";
                                solr.ImagePullSecret := "registry-key" |};
          solr.CustomPrometheusKubeOptions_ :=
            {| solr.PodOptions_ := Some
                 {| solr.poAffinity := Some {| affinityRules := ["zone-a"] |};
                    solr.poResources :=
                      {| Limits := Some {[ "memory" := "1Gi" ]};
                         Requests := None |} |};
               solr.DeploymentOptions := None;
               solr.ConfigMapOptions := None |};
          solr.ExporterEntrypoint := "";
          solr.NumThreads := 4;
          solr.ScrapeInterval := 0;
          solr.Config := "<config/>" |};
     solr.speStatus := {| solr.speReady := false |} |}.

(** An exporter as a user may submit it: nothing but a reference. *)
Definition bare : solr.SolrPrometheusExporter :=
  {| solr.speMeta := {| Name := "metrics"; Namespace := "search";
                        Labels := None; Annotations := None |};
     solr.speSpec :=
       {| solr.speSolrReference :=
            {| solr.Cloud := Some {| solr.scrName := "demo";
                                     solr.scrNamespace := "";
                                     solr.scrZookeeperConnectionInfo := None |};
               solr.Standalone := None |};
          solr.Image := None;
          solr.CustomPrometheusKubeOptions_ :=
            {| solr.PodOptions_ := None; solr.DeploymentOptions := None;
               solr.ConfigMapOptions := None |};
          solr.ExporterEntrypoint := "";
          solr.NumThreads := 0;
          solr.ScrapeInterval := 0;
          solr.Config := "" |};
     solr.speStatus := {| solr.speReady := false |} |}.

Definition orDefault (given fallback : string) : string :=
  if util.eqs given "" then fallback else given.

(** Defaults that fill the empty fields of an image and the empty chroot of
    a connection info. *)
Global Instance sample_defaults : DefaultsAPI := {|
  DefaultSolrRepo := "library/solr";
  DefaultSolrVersion := "7.7.0";
  DefaultPullPolicy := "IfNotPresent";
  imageWithDefaults := λ repo version policy image,
    (util.eqs (solr.Repository image) "" || util.eqs (solr.Tag image) ""
     || util.eqs (solr.PullPolicy image) "",
     {| solr.Repository := orDefault (solr.Repository image) repo;
        solr.Tag := orDefault (solr.Tag image) version;
        solr.PullPolicy := orDefault (solr.PullPolicy image) policy;
        solr.ImagePullSecret := solr.ImagePullSecret image |});
  zkInfoWithDefaults := λ info,
    (util.eqs (solr.ChRoot info) "",
     {| solr.InternalConnectionString := solr.InternalConnectionString info;
        solr.ExternalConnectionString := solr.ExternalConnectionString info;
        solr.ChRoot := orDefault (solr.ChRoot info) "/" |});
|}.

(** Labels and annotations are taken over from the source. *)
Definition copyMeta (from to : ObjectMeta) : bool * ObjectMeta :=
  (negb (bool_decide (Labels from = Labels to
                      ∧ Annotations from = Annotations to)),
   {| Name := Name to; Namespace := Namespace to; Labels := Labels from;
      Annotations := Annotations from |}).

End exporter_samples.

(** ** More readings of a pass *)

Section PassReadings.
Context `{SolrAPI} `{UtilPkg} `{Client W}.
Variable cfg : Settings.
Import controllers.

(** The instance a pass works on, when the fetch answers one and the
    defaults leave it as it is. *)
Definition fetched (req : NamespacedName) (w : W) : option solr.SolrCloud :=
  match result (fetchInstance cfg req w) with
  | Ok (inr instance) => Some instance
  | _ => None
  end.

(** The request is about no kind but the given ones. *)
Definition about (kinds : list Kind) (c : Call) : Prop :=
  ∀ k, setup.requested c = Some k → k ∈ kinds.

(** [reconcileZk] gets as far as the ZookeeperCluster. *)
Definition providesZk (zkRef : solr.ZookeeperRef) : bool :=
  match solr.ConnectionInfo zkRef, solr.ProvidedZookeeper_ zkRef with
  | None, Some _ => useZkCRD cfg
  | _, _ => false
  end.

(** The addressability method of the instance is the ingress. *)
Definition usesIngress (instance : solr.SolrCloud) : bool :=
  match solr.External (solr.scSpec instance) with
  | Some ext => util.eqs (solr.Method ext) IngressMethod
  | None => false
  end.

(** The request writes nothing, or writes the status. *)
Definition writesAtMostStatus (c : Call) : Prop :=
  setup.written c = None ∨ ∃ o, c = CallStatusUpdate o.

(** Nothing is left to do: every object asked for exists, the defaults
    change nothing, and no copy of fields asks for an update. *)
Definition settled : Prop :=
  (∀ k key w, ∃ o w', clientGet k key w = (inr o, w')) ∧
  (∀ base instance, (WithDefaults base instance).1 = false) ∧
  (∀ from to, (CopyServiceFields from to).1 = false) ∧
  (∀ from to, (CopyConfigMapFields from to).1 = false) ∧
  (∀ from to, (CopyStatefulSetFields from to).1 = false) ∧
  (∀ from to, (CopyIngressFields from to).1 = false) ∧
  (∀ from to, (CopyZookeeperClusterFields from to).1 = false).

End PassReadings.

(** ** More sample platforms *)

Module platforms.

(** An API in which the defaults set the replicas of a cloud that has
    none. *)
Definition defaultingApi : SolrAPI := {|
  ToImageName := @ToImageName sample.api;
  ImageVersion := @ImageVersion sample.api;
  ZkConnectionString := @ZkConnectionString sample.api;
  WithDefaults := λ _ sc,
    match solr.Replicas (solr.scSpec sc) with
    | Some _ => (false, sc)
    | None =>
        (true,
         {| solr.scMeta := solr.scMeta sc;
            solr.scSpec :=
              {| solr.Replicas := Some 3;
                 solr.ZookeeperRef_ := solr.ZookeeperRef_ (solr.scSpec sc);
                 solr.SolrImage := solr.SolrImage (solr.scSpec sc);
                 solr.BusyBoxImage := solr.BusyBoxImage (solr.scSpec sc);
                 solr.BackupRestoreVolume :=
                   solr.BackupRestoreVolume (solr.scSpec sc);
                 solr.External := solr.External (solr.scSpec sc) |};
            solr.scStatus := solr.scStatus sc |})
    end;
  GetAllSolrNodeNames := @GetAllSolrNodeNames sample.api;
  UsesIndividualNodeServices := @UsesIndividualNodeServices sample.api;
  UsesHeadlessService := @UsesHeadlessService sample.api;
  AdvertisedNodeHost := @AdvertisedNodeHost sample.api;
  CloudSharedLabels := @CloudSharedLabels sample.api;
  InternalNodeUrl := @InternalNodeUrl sample.api;
  ExternalNodeUrl := @ExternalNodeUrl sample.api;
  InternalCommonUrl := @InternalCommonUrl sample.api;
  ExternalCommonUrl := @ExternalCommonUrl sample.api;
  ZookeeperPortsClient := @ZookeeperPortsClient sample.api;
  SolrTechnologyLabel := @SolrTechnologyLabel sample.api;
  IngressMethod := @IngressMethod sample.api;
|}.

(** A cloud without replicas, stored in a cluster. *)
Definition undefaultedCloud : solr.SolrCloud :=
  cloud_example.mkCloud None
    (cloud_example.externalZk "zk.example.com:2181") None None
    solr.emptyStatus.

Definition undefaultedCluster : sample.Cluster :=
  {| sample.clouds := [undefaultedCloud]; sample.services := [];
     sample.configMaps := []; sample.statefulSets := [];
     sample.ingresses := []; sample.zookeepers := []; sample.pods := [] |}.

(** An API server that answers reads from a cluster and refuses every
    write. *)
Record ReadOnly := { view : sample.Cluster }.

Definition forbidden : error :=
  {| errors.Reason := errors.StatusReasonOther "Forbidden";
     errors.Message := "forbidden" |}.

Definition readOnlyClient : Client ReadOnly := {|
  clientGet := λ k key w, ((sample.get k key (view w)).1, w);
  clientCreate := λ k o w, (inl forbidden, w);
  clientUpdate := λ k o w, (inl forbidden, w);
  clientStatusUpdate := λ o w, (inl forbidden, w);
  clientList := λ namespace selector w,
    ((sample.listPods namespace selector (view w)).1, w);
  SetControllerReference := λ _ _ o, inr o;
|}.

(** A package whose copies of fields never ask for an update. *)
Definition settledPkg : UtilPkg := {|
  GenerateCommonService := @GenerateCommonService sample.pkg;
  GenerateNodeService := @GenerateNodeService sample.pkg;
  GenerateHeadlessService := @GenerateHeadlessService sample.pkg;
  GenerateConfigMap := @GenerateConfigMap sample.pkg;
  GenerateStatefulSet := @GenerateStatefulSet sample.pkg;
  GenerateIngress := @GenerateIngress sample.pkg;
  GenerateZookeeperCluster := @GenerateZookeeperCluster sample.pkg;
  CopyServiceFields := λ from to, (false, to);
  CopyConfigMapFields := λ from to, (false, to);
  CopyStatefulSetFields := λ from to, (false, to);
  CopyIngressFields := λ from to, (false, to);
  CopyZookeeperClusterFields := λ from to, (false, to);
  BackupRestoreVolume := @BackupRestoreVolume sample.pkg;
|}.

(** An API server in which every object asked for is there: the cloud it
    holds, and for the other kinds the object generated for that cloud. *)
Record Settled := { holds : solr.SolrCloud; running : list Pod }.

Definition settledObject (w : Settled) (k : Kind) : obj k :=
  match k with
  | KSolrCloud => holds w
  | KService => @GenerateCommonService sample.pkg (holds w)
  | KConfigMap => @GenerateConfigMap sample.pkg (holds w)
  | KStatefulSet =>
      @GenerateStatefulSet sample.pkg (holds w) (solr.scStatus (holds w)) ∅
  | KIngress => @GenerateIngress sample.pkg (holds w) [] ""
  | KZookeeperCluster =>
      @GenerateZookeeperCluster sample.pkg (holds w)
        {| solr.pzkChRoot := "/"; solr.pzkReplicas := Some 1 |}
  end.

Definition settledClient : Client Settled := {|
  clientGet := λ k key w, (inr (settledObject w k), w);
  clientCreate := λ k o w, (inr o, w);
  clientUpdate := λ k o w, (inr o, w);
  clientStatusUpdate := λ o w,
    (inr o, {| holds := o; running := running w |});
  clientList := λ namespace selector w, (inr (running w), w);
  SetControllerReference := λ _ _ o, inr o;
|}.

Definition settledWorld : Settled :=
  {| holds := cloud_example.externalCloud;
     running := [cloud_example.mkPod "demo-solrcloud-0" "v2" []] |}.

End platforms.

(** * Properties *)

(** ** The exporter deployment generator *)

Section ExporterFacts.
Context `{SolrAPI}.
Import util.

Lemma Generate_panics_without_image spe info :
  solr.Image (solr.speSpec spe) = None →
  GenerateSolrPrometheusExporterDeployment spe info = Panic.
Proof.
  intros Himg. unfold GenerateSolrPrometheusExporterDeployment.
  destruct (exporterConfig spe) as [[vols mounts] fArgs].
  by rewrite Himg.
Qed.

(** C10.  On an exporter whose [PodOptions] is nil (and whose image is
    set, so that the call returns), the generator leaves the exporter with
    [PodOptions] pointing to an empty value: the exporter after the call
    differs from the one passed in, and in nothing but that field. *)
Theorem Generate_initializes_PodOptions spe info :
  solr.PodOptions_ (solr.CustomPrometheusKubeOptions_ (solr.speSpec spe))
    = None →
  is_Some (solr.Image (solr.speSpec spe)) →
  ∃ deployment spe',
    GenerateSolrPrometheusExporterDeployment spe info
      = Ok (deployment, spe') ∧
    spe' ≠ spe ∧
    solr.PodOptions_
      (solr.CustomPrometheusKubeOptions_ (solr.speSpec spe'))
      = Some solr.emptyPodOptions ∧
    solr.DeploymentOptions
      (solr.CustomPrometheusKubeOptions_ (solr.speSpec spe'))
      = solr.DeploymentOptions
          (solr.CustomPrometheusKubeOptions_ (solr.speSpec spe)) ∧
    solr.ConfigMapOptions
      (solr.CustomPrometheusKubeOptions_ (solr.speSpec spe'))
      = solr.ConfigMapOptions
          (solr.CustomPrometheusKubeOptions_ (solr.speSpec spe)) ∧
    solr.speMeta spe' = solr.speMeta spe ∧
    solr.speStatus spe' = solr.speStatus spe ∧
    solr.speSolrReference (solr.speSpec spe')
      = solr.speSolrReference (solr.speSpec spe) ∧
    solr.Image (solr.speSpec spe') = solr.Image (solr.speSpec spe) ∧
    solr.ExporterEntrypoint (solr.speSpec spe')
      = solr.ExporterEntrypoint (solr.speSpec spe) ∧
    solr.NumThreads (solr.speSpec spe') = solr.NumThreads (solr.speSpec spe) ∧
    solr.ScrapeInterval (solr.speSpec spe')
      = solr.ScrapeInterval (solr.speSpec spe) ∧
    solr.Config (solr.speSpec spe') = solr.Config (solr.speSpec spe).
Proof.
  intros Hnil [image Himg].
  unfold GenerateSolrPrometheusExporterDeployment.
  destruct (exporterConfig spe) as [[vols mounts] fArgs].
  rewrite Himg, Hnil. eexists _, _. split; [reflexivity|].
  split; [|by repeat split].
  intros Heq. apply (f_equal (λ e,
    solr.PodOptions_ (solr.CustomPrometheusKubeOptions_ (solr.speSpec e))))
    in Heq.
  simpl in Heq. by rewrite Hnil in Heq.
Qed.
End ExporterFacts.

Lemma Generate_initializes_PodOptions_witness :
  ∃ deployment spe',
    util.GenerateSolrPrometheusExporterDeployment
      exporter_example.exporter exporter_example.connection
      = Ok (deployment, spe') ∧
    solr.PodOptions_ (solr.CustomPrometheusKubeOptions_ (solr.speSpec spe'))
      = Some solr.emptyPodOptions.
Proof.
  destruct (Generate_initializes_PodOptions
              exporter_example.exporter exporter_example.connection)
    as (d & spe' & Hrun & _ & Hpo & _).
  - reflexivity.
  - by eexists.
  - by exists d, spe'.
Defined.

(** ** The status aggregator *)

Section StatusFacts.
Context `{SolrAPI} `{UtilPkg}.
Import controllers.

Implicit Types (solrCloud : solr.SolrCloud) (p : Pod) (pods : list Pod).

Lemma scanPod_ok solrCloud acc p :
  scannable p →
  scanPod solrCloud acc p = Ok (scanned solrCloud acc [p]).
Proof.
  unfold scannable, scanPod, scanned, podVersion, insertNode, nodeStatusOf,
    divergentVersion, runningVersion, targetTag, podName, util.eqs.
  intros Hp. simpl.
  destruct (podContainerStatuses p) as [|s statuses].
  - simpl. by rewrite app_nil_r, Z.add_0_r.
  - destruct (psContainers (podSpec p)) as [|c cs]; [by destruct Hp|].
    simpl. rewrite Z.add_0_r. case_bool_decide; simpl; by rewrite ?app_nil_r.
Qed.

Lemma scanned_nil solrCloud acc : scanned solrCloud acc [] = acc.
Proof.
  destruct acc. unfold scanned. simpl.
  by rewrite !app_nil_r, Z.add_0_r.
Qed.

Lemma scanned_cons solrCloud acc p pods :
  scanned solrCloud (scanned solrCloud acc [p]) pods
  = scanned solrCloud acc (p :: pods).
Proof.
  unfold scanned. simpl. f_equal.
  - rewrite <- app_assoc. f_equal.
    by destruct (divergentVersion _ p).
  - by rewrite <- app_assoc.
  - by rewrite Z.add_0_r, <- Z.add_assoc.
Qed.

Lemma scanPods_ok solrCloud pods : ∀ acc,
  Forall scannable pods →
  scanPods solrCloud acc pods = Ok (scanned solrCloud acc pods).
Proof.
  induction pods as [|p pods IH]; intros acc Hall; simpl.
  - by rewrite scanned_nil.
  - inversion_clear Hall as [|? ? Hp Hrest].
    rewrite scanPod_ok by done. rewrite IH by done.
    by rewrite scanned_cons.
Qed.

(** The aggregator returns on scannable pods once the replicas are set. *)
Lemma cloudStatus_ok solrCloud pods newStatus replicas :
  solr.Replicas (solr.scSpec solrCloud) = Some replicas →
  Forall scannable pods →
  ∃ newStatus', cloudStatus solrCloud pods newStatus = Ok newStatus'.
Proof.
  intros Hr Hall. unfold cloudStatus.
  rewrite scanPods_ok, Hr by done.
  destruct (otherVersions _); by eexists.
Qed.
Lemma omap_all_None {A B} (f : A → option B) (l : list A) :
  Forall (λ x, f x = None) l → omap f l = [].
Proof.
  induction 1 as [|x l Hx _ IH]; simpl; [done|]. rewrite Hx. exact IH.
Qed.

(** What the aggregator answers on scannable pods, in terms of the pods. *)
Lemma cloudStatus_scanned solrCloud pods newStatus replicas :
  solr.Replicas (solr.scSpec solrCloud) = Some replicas →
  Forall scannable pods →
  ∃ newStatus',
    cloudStatus solrCloud pods newStatus = Ok newStatus' ∧
    solr.SolrNodes newStatus'
      = Some (solrNodes (scanned solrCloud scan0 pods)) ∧
    solr.BackupRestoreReady newStatus'
      = (if (foldr Z.add 0 (backupVolumes solrCloud <$> pods) =? replicas)
            && (0 <? foldr Z.add 0 (backupVolumes solrCloud <$> pods))
         then true else solr.BackupRestoreReady newStatus) ∧
    (solr.TargetVersion newStatus', solr.Version newStatus')
      = match omap (divergentVersion (targetTag solrCloud)) pods with
        | v :: _ => (targetTag solrCloud, v)
        | [] => ("", targetTag solrCloud)
        end.
Proof.
  intros Hr Hall. unfold cloudStatus.
  rewrite scanPods_ok, Hr by done. simpl.
  destruct (omap _ pods); eexists; (split; [reflexivity|]); by simpl.
Qed.

(** C2, as the code has it.  When some pod that reports container statuses
    runs a version other than the target tag, the status reports the target
    tag as [TargetVersion] and, as [Version], the version of the first such
    pod in the order in which the pods were listed. *)
Theorem version_is_first_divergent_as_listed
    solrCloud pods newStatus replicas pre p post v :
  solr.Replicas (solr.scSpec solrCloud) = Some replicas →
  Forall scannable pods →
  pods = pre ++ p :: post →
  divergentVersion (targetTag solrCloud) p = Some v →
  Forall (λ q, divergentVersion (targetTag solrCloud) q = None) pre →
  ∃ newStatus',
    cloudStatus solrCloud pods newStatus = Ok newStatus' ∧
    solr.TargetVersion newStatus' = targetTag solrCloud ∧
    solr.Version newStatus' = v.
Proof.
  intros Hr Hall -> Hp Hpre.
  destruct (cloudStatus_scanned solrCloud (pre ++ p :: post) newStatus
              replicas Hr Hall) as (st & Hrun & _ & _ & Hv).
  exists st. split; [done|].
  rewrite omap_app, (omap_all_None _ pre Hpre) in Hv. simpl in Hv.
  rewrite Hp in Hv. by inversion Hv.
Qed.
(** *** Backup readiness *)

Lemma count_named (name : string) (vols : list Volume) :
  NoDup (volName <$> vols) →
  length (filter (λ v, volName v = name) vols)
  = if bool_decide (name ∈ volName <$> vols) then 1%nat else 0%nat.
Proof.
  induction vols as [|v vols IH]; simpl; intros Hnd; [done|].
  apply NoDup_cons in Hnd as [Hv Hnd]. rewrite filter_cons.
  destruct (decide (volName v = name)) as [<-|Hne]; simpl.
  - rewrite IH by done. rewrite (bool_decide_eq_false_2 _ Hv).
    rewrite bool_decide_eq_true_2; [done|by left].
  - rewrite IH by done.
    destruct (decide (name ∈ volName <$> vols)) as [Hin|Hnin].
    + rewrite !bool_decide_eq_true_2; [done|by right|done].
    + rewrite !bool_decide_eq_false_2; [done| |done].
      by apply not_elem_of_cons.
Qed.

Lemma backupVolumes_mounts solrCloud p :
  distinctVolumes p →
  backupVolumes solrCloud p = if mountsBackup solrCloud p then 1 else 0.
Proof.
  unfold distinctVolumes, backupVolumes, mountsBackup. intros Hnd.
  destruct (solr.BackupRestoreVolume _); simpl; [|done].
  rewrite count_named by done. by case_bool_decide.
Qed.

Lemma backupVolumes_sum solrCloud pods :
  Forall distinctVolumes pods →
  foldr Z.add 0 (backupVolumes solrCloud <$> pods)
  = Z.of_nat (length (filter (mountsBackup solrCloud) pods)).
Proof.
  induction 1 as [|p pods Hp _ IH]; csimpl; [done|].
  rewrite IH, filter_cons, backupVolumes_mounts by done.
  destruct (mountsBackup solrCloud p); simpl; [lia|done].
Qed.

(** C4.  On a status whose [BackupRestoreReady] is not yet set, as
    [Reconcile] passes it, and on pods whose volume names are unique within
    each pod, the aggregator reports [BackupRestoreReady] exactly when the
    number of pods that mount the designated backup volume equals the
    desired replica count and is not zero. *)
Theorem backup_ready_iff_every_replica_mounts
    solrCloud pods newStatus replicas :
  solr.Replicas (solr.scSpec solrCloud) = Some replicas →
  Forall scannable pods →
  Forall distinctVolumes pods →
  solr.BackupRestoreReady newStatus = false →
  ∃ newStatus',
    cloudStatus solrCloud pods newStatus = Ok newStatus' ∧
    (solr.BackupRestoreReady newStatus' = true ↔
     Z.of_nat (length (filter (mountsBackup solrCloud) pods)) = replicas ∧
     replicas ≠ 0).
Proof.
  intros Hr Hall Hvols Hfresh.
  destruct (cloudStatus_scanned solrCloud pods newStatus replicas Hr Hall)
    as (st & Hrun & _ & Hb & _).
  exists st. split; [done|]. rewrite Hb, Hfresh, backupVolumes_sum by done.
  destruct (Z.eqb_spec (Z.of_nat (length (filter (mountsBackup solrCloud) pods)))
              replicas) as [Heq|Hne]; simpl.
  - destruct (Z.ltb_spec 0
                (Z.of_nat (length (filter (mountsBackup solrCloud) pods))))
      as [Hpos|Hle].
    + split; [intros _; split; [done|lia]|done].
    + split; [done|]. intros [_ Hnz]. lia.
  - split; [done|]. by intros [? _].
Qed.

(** *** The per-node array *)

Lemma nodeStatusMap_other solrCloud pods : ∀ m name,
  name ∉ podName <$> pods →
  foldl (insertNode solrCloud) m pods !! name = m !! name.
Proof.
  induction pods as [|q pods IH]; intros m name Hname; csimpl in *; [done|].
  apply not_elem_of_cons in Hname as [Hne Hname].
  rewrite IH by done. unfold insertNode. by rewrite lookup_insert_ne.
Qed.

Lemma nodeStatusMap_pod solrCloud pods : ∀ m p,
  NoDup (podName <$> pods) → p ∈ pods →
  foldl (insertNode solrCloud) m pods !! podName p
  = Some (nodeStatusOf solrCloud p).
Proof.
  induction pods as [|q pods IH]; intros m p Hnd Hp; csimpl in *.
  - by apply elem_of_nil in Hp.
  - apply NoDup_cons in Hnd as [Hq Hnd].
    apply elem_of_cons in Hp as [->|Hp]; [|by apply IH].
    rewrite nodeStatusMap_other by done. unfold insertNode.
    by rewrite lookup_insert_eq.
Qed.

Lemma nodeStatusMap_name solrCloud pods : ∀ m name,
  (∀ n s, m !! n = Some s → solr.nsName s = n) →
  name ∈ podName <$> pods →
  ∃ s, foldl (insertNode solrCloud) m pods !! name = Some s ∧
       solr.nsName s = name.
Proof.
  induction pods as [|q pods IH]; intros m name Hm Hname; csimpl in *.
  - by apply elem_of_nil in Hname.
  - assert (Hm' : ∀ n s, insertNode solrCloud m q !! n = Some s →
                         solr.nsName s = n).
    { intros n s. unfold insertNode. rewrite lookup_insert.
      case_decide as Hn; [|by apply Hm]. intros [= <-]. by rewrite <- Hn. }
    destruct (decide (name ∈ podName <$> pods)) as [Hin|Hnin];
      [by apply IH|].
    apply elem_of_cons in Hname as [->|?]; [|done].
    rewrite nodeStatusMap_other by done. unfold insertNode.
    rewrite lookup_insert_eq. by eexists.
Qed.

(** The names of the per-node array are the pod names, sorted. *)
Lemma solrNodes_names solrCloud pods :
  solr.nsName <$> solrNodes (scanned solrCloud scan0 pods)
  = sortStrings (podName <$> pods).
Proof.
  unfold solrNodes, scanned, scan0; cbn [nodeStatusMap nodeNames app].
  rewrite <- list_fmap_compose.
  rewrite <- (list_fmap_id (sortStrings _)) at 2.
  apply list_fmap_ext. intros i name Hi. unfold compose, id.
  assert (Hname : name ∈ podName <$> pods).
  { rewrite <- (merge_sort_Permutation String.le).
    by eapply list_elem_of_lookup_2. }
  destruct (nodeStatusMap_name solrCloud pods ∅ name) as (s & -> & Hs);
    [by intros n s; rewrite lookup_empty|done|done].
Qed.

Lemma sortStrings_Permutation (l1 l2 : list string) :
  l1 ≡ₚ l2 → sortStrings l1 = sortStrings l2.
Proof.
  intros Hperm. unfold sortStrings.
  apply (Sorted_unique String.le); [apply Sorted_merge_sort, _..|].
  by rewrite !merge_sort_Permutation.
Qed.

Lemma solrNodes_Permutation solrCloud pods pods' :
  NoDup (podName <$> pods) → pods ≡ₚ pods' →
  solrNodes (scanned solrCloud scan0 pods')
  = solrNodes (scanned solrCloud scan0 pods).
Proof.
  intros Hnd Hperm. unfold solrNodes, scanned, scan0; cbn [nodeStatusMap nodeNames app].
  rewrite (sortStrings_Permutation (podName <$> pods') (podName <$> pods))
    by (by rewrite Hperm).
  apply list_fmap_ext. intros i name Hi.
  assert (Hname : name ∈ podName <$> pods).
  { rewrite <- (merge_sort_Permutation String.le).
    by eapply list_elem_of_lookup_2. }
  apply list_elem_of_fmap in Hname as (p & -> & Hp).
  rewrite !nodeStatusMap_pod; [done|done|done| |].
  - by rewrite <- Hperm.
  - by rewrite <- Hperm.
Qed.

(** C9.  The per-node array is in ascending order of the node names; and on
    pods with pairwise distinct names, as the pods of one namespace are, the
    array is the same for every order in which the pods are listed. *)
Theorem solrNodes_sorted_whatever_the_listing
    solrCloud pods newStatus replicas :
  solr.Replicas (solr.scSpec solrCloud) = Some replicas →
  Forall scannable pods →
  ∃ newStatus' nodes,
    cloudStatus solrCloud pods newStatus = Ok newStatus' ∧
    solr.SolrNodes newStatus' = Some nodes ∧
    StronglySorted String.le (solr.nsName <$> nodes) ∧
    (solr.nsName <$> nodes) ≡ₚ (podName <$> pods) ∧
    (NoDup (podName <$> pods) →
     ∀ pods', pods ≡ₚ pods' →
       ∃ newStatus'',
         cloudStatus solrCloud pods' newStatus = Ok newStatus'' ∧
         solr.SolrNodes newStatus'' = Some nodes).
Proof.
  intros Hr Hall.
  destruct (cloudStatus_scanned solrCloud pods newStatus replicas Hr Hall)
    as (st & Hrun & Hnodes & _).
  exists st, (solrNodes (scanned solrCloud scan0 pods)).
  split; [done|]. split; [done|]. rewrite solrNodes_names.
  split; [apply StronglySorted_merge_sort; apply _|].
  split; [apply merge_sort_Permutation|].
  intros Hnd pods' Hperm.
  destruct (cloudStatus_scanned solrCloud pods' newStatus replicas Hr)
    as (st' & Hrun' & Hnodes' & _); [by rewrite <- Hperm|].
  exists st'. split; [done|]. rewrite Hnodes'. f_equal.
  by apply solrNodes_Permutation.
Qed.

End StatusFacts.

(** Every pod of a literal list has a container. *)
Ltac all_scannable :=
  repeat first
    [ apply List.Forall_nil
    | apply List.Forall_cons; [right; simpl; discriminate|] ].

(** Listed as [pod-b] (v3), [pod-a] (v1) with target v2. *)
Lemma version_is_first_divergent_as_listed_witness :
  ∃ newStatus',
    controllers.cloudStatus cloud_example.cloud
      [cloud_example.mkPod "pod-b" "v3" []; cloud_example.mkPod "pod-a" "v1" []]
      solr.emptyStatus = Ok newStatus' ∧
    solr.TargetVersion newStatus' = "v2" ∧
    solr.Version newStatus' = "v3".
Proof.
  apply (version_is_first_divergent_as_listed cloud_example.cloud
           [cloud_example.mkPod "pod-b" "v3" [];
            cloud_example.mkPod "pod-a" "v1" []]
           solr.emptyStatus 3 []
           (cloud_example.mkPod "pod-b" "v3" [])
           [cloud_example.mkPod "pod-a" "v1" []] "v3").
  - reflexivity.
  - all_scannable.
  - reflexivity.
  - reflexivity.
  - constructor.
Defined.

(** C2 as stated fails: listed as [pod-b] (v3), [pod-a] (v1) with target v2,
    the first divergent version in the order of the pod names is v1, and the
    status reports v3. *)
Lemma version_not_first_divergent_by_name :
  ¬ ∀ newStatus',
      controllers.cloudStatus cloud_example.cloud
        [cloud_example.mkPod "pod-b" "v3" [];
         cloud_example.mkPod "pod-a" "v1" []]
        solr.emptyStatus = Ok newStatus' →
      Some (solr.Version newStatus')
      = firstDivergentByName "v2" (default [] (solr.SolrNodes newStatus')).
Proof.
  intros Hclaim. specialize (Hclaim _ eq_refl). vm_compute in Hclaim.
  discriminate Hclaim.
Qed.

(** The example of the specification: [pod-a] (v1), [pod-b] (v1), [pod-c]
    (v2) with target v2 report v1, however they are listed. *)
Example version_skew_example :
  ∀ pods,
    pods ≡ₚ [cloud_example.mkPod "pod-a" "v1" [];
             cloud_example.mkPod "pod-b" "v1" [];
             cloud_example.mkPod "pod-c" "v2" []] →
    ∃ newStatus',
      controllers.cloudStatus cloud_example.cloud pods solr.emptyStatus
        = Ok newStatus' ∧
      solr.TargetVersion newStatus' = "v2" ∧
      solr.Version newStatus' = "v1".
Proof.
  intros pods Hperm.
  destruct (cloudStatus_scanned cloud_example.cloud pods solr.emptyStatus 3)
    as (st & Hrun & _ & _ & Hv); [done| |].
  { rewrite Hperm. all_scannable. }
  exists st. split; [done|].
  assert (Hvs : omap (divergentVersion (targetTag cloud_example.cloud)) pods
                ≡ₚ ["v1"; "v1"]) by (by rewrite Hperm).
  destruct (omap _ pods) as [|v vs].
  - by apply Permutation_nil_l in Hvs.
  - assert (v ∈ ["v1"; "v1"]) as Hin by (rewrite <- Hvs; by left).
    assert (v = "v1") as ->.
    { apply elem_of_cons in Hin as [?|Hin]; [done|].
      apply elem_of_cons in Hin as [?|Hin]; [done|].
      by apply elem_of_nil in Hin. }
    by inversion Hv.
Qed.
(** The volume names of every pod of a literal list are distinct. *)
Ltac all_distinct :=
  repeat first
    [ apply List.Forall_nil
    | apply List.Forall_cons;
      [apply (bool_decide_unpack _); vm_compute; exact I|] ].

(** Three replicas wanted, three pods mounting the backup volume. *)
Lemma backup_ready_iff_every_replica_mounts_witness :
  ∃ newStatus',
    controllers.cloudStatus cloud_example.cloud
      [cloud_example.mkPod "pod-a" "v2" [cloud_example.backupVolume];
       cloud_example.mkPod "pod-b" "v2" [cloud_example.backupVolume];
       cloud_example.mkPod "pod-c" "v2"
         [cloud_example.dataVolume; cloud_example.backupVolume]]
      solr.emptyStatus = Ok newStatus' ∧
    solr.BackupRestoreReady newStatus' = true.
Proof.
  destruct (backup_ready_iff_every_replica_mounts cloud_example.cloud
    [cloud_example.mkPod "pod-a" "v2" [cloud_example.backupVolume];
     cloud_example.mkPod "pod-b" "v2" [cloud_example.backupVolume];
     cloud_example.mkPod "pod-c" "v2"
       [cloud_example.dataVolume; cloud_example.backupVolume]]
    solr.emptyStatus 3) as (st & Hrun & Hiff).
  - reflexivity.
  - all_scannable.
  - all_distinct.
  - reflexivity.
  - exists st. split; [exact Hrun|]. apply Hiff. split; [reflexivity|lia].
Defined.

(** The examples of the specification: two of three pods mounting, and no
    replica wanted. *)
Example backup_two_of_three :
  ∃ newStatus',
    controllers.cloudStatus cloud_example.cloud
      [cloud_example.mkPod "pod-a" "v2" [cloud_example.backupVolume];
       cloud_example.mkPod "pod-b" "v2" [cloud_example.backupVolume];
       cloud_example.mkPod "pod-c" "v2" [cloud_example.dataVolume]]
      solr.emptyStatus = Ok newStatus' ∧
    solr.BackupRestoreReady newStatus' = false.
Proof. eexists. split; [vm_compute; reflexivity|reflexivity]. Qed.

Example backup_no_replica pods :
  Forall scannable pods →
  ∃ newStatus',
    controllers.cloudStatus
      (cloud_example.mkCloud (Some 0)
         (cloud_example.externalZk "zk.example.com:2181")
         (Some cloud_example.backupVolume) None solr.emptyStatus)
      pods solr.emptyStatus = Ok newStatus' ∧
    solr.BackupRestoreReady newStatus' = false.
Proof.
  intros Hall.
  destruct (cloudStatus_scanned
              (cloud_example.mkCloud (Some 0)
                 (cloud_example.externalZk "zk.example.com:2181")
                 (Some cloud_example.backupVolume) None solr.emptyStatus)
              pods solr.emptyStatus 0) as (st & Hrun & _ & Hready & _);
    [done|done|].
  exists st. split; [done|]. rewrite Hready.
  match goal with |- context [?n =? 0] => by destruct n end.
Qed.

(** Listed as [pod-b], [pod-a] or as [pod-a], [pod-b]. *)
Lemma solrNodes_sorted_whatever_the_listing_witness :
  ∃ nodes newStatus' newStatus'',
    controllers.cloudStatus cloud_example.cloud
      [cloud_example.mkPod "pod-b" "v2" []; cloud_example.mkPod "pod-a" "v1" []]
      solr.emptyStatus = Ok newStatus' ∧
    controllers.cloudStatus cloud_example.cloud
      [cloud_example.mkPod "pod-a" "v1" []; cloud_example.mkPod "pod-b" "v2" []]
      solr.emptyStatus = Ok newStatus'' ∧
    solr.SolrNodes newStatus' = Some nodes ∧
    solr.SolrNodes newStatus'' = Some nodes ∧
    solr.nsName <$> nodes = ["pod-a"; "pod-b"].
Proof.
  destruct (solrNodes_sorted_whatever_the_listing cloud_example.cloud
    [cloud_example.mkPod "pod-b" "v2" []; cloud_example.mkPod "pod-a" "v1" []]
    solr.emptyStatus 3) as (st & nodes & Hrun & Hnodes & _ & _ & Hperm).
  - reflexivity.
  - all_scannable.
  - destruct (Hperm) with
      (pods' := [cloud_example.mkPod "pod-a" "v1" [];
                 cloud_example.mkPod "pod-b" "v2" []])
      as (st' & Hrun' & Hnodes').
    + apply (bool_decide_unpack _). vm_compute. exact I.
    + apply perm_swap.
    + exists nodes, st, st'. repeat split; try assumption.
      vm_compute in Hrun. injection Hrun as <-.
      injection Hnodes as <-. reflexivity.
Defined.


(** ** The reconciler *)

Section ReconcilerFacts.
Context `{SolrAPI} `{UtilPkg} `{Client W}.
Variable cfg : Settings.
Import controllers errors.

Implicit Types (instance : solr.SolrCloud) (w : W).

Lemma run_ret {A} (a : A) w : (mret a : M W A) w = (Ok a, w, []).
Proof. reflexivity. Qed.

Lemma run_bind {A B} (m : M W A) (f : A → M W B) w :
  (m ≫= f) w
  = match m w with
    | (Ok a, w1, t1) => let '(r, w2, t2) := f a w1 in (r, w2, t1 ++ t2)
    | (Panic, w1, t1) => (Panic, w1, t1)
    end.
Proof. reflexivity. Qed.

Lemma run_request {A} (c : Call) (f : W → A * W) w :
  request c f w = (Ok (f w).1, (f w).2, [c]).
Proof. unfold request. by destruct (f w). Qed.

(** Unfold a computation applied to a world down to the client's answers. *)
Ltac run :=
  unfold orReturn, Get, Create, Update, StatusUpdate, List_;
  repeat (rewrite ?run_bind, ?run_ret, ?run_request; simpl).

(** C7.  When the SolrCloud cannot be fetched, the pass ends after that one
    request: with success and no requeue when the answer is not-found, and
    with the error of the fetch otherwise. *)
Theorem fetch_failure_ends_the_pass req w err w' :
  clientGet KSolrCloud req w = (inl err, w') →
  Reconcile cfg req w
  = (Ok ({| Requeue := false |}, if IsNotFound err then None else Some err),
     w', [CallGet KSolrCloud req]).
Proof.
  intros Hget. unfold Reconcile, fetchInstance. run. rewrite Hget. simpl.
  destruct (IsNotFound err); by run.
Qed.

(** C8.  The final step sends a status update exactly when the computed
    status differs from the stored one; when they are equal it sends nothing
    and leaves the world as it is. *)
Theorem status_written_iff_changed instance newStatus w :
  ((∃ o, CallStatusUpdate o ∈ trace (persistStatus instance newStatus w)) ↔
   solr.scStatus instance ≠ newStatus) ∧
  (solr.scStatus instance ≠ newStatus →
   trace (persistStatus instance newStatus w)
   = [CallStatusUpdate (setStatus instance newStatus)]) ∧
  (solr.scStatus instance = newStatus →
   persistStatus instance newStatus w = (Ok (inr ()), w, [])).
Proof.
  unfold persistStatus, DeepEqual.
  case_bool_decide as Heq; simpl.
  - split; [|by split].
    split; [|done]. intros [o Ho]. by apply elem_of_nil in Ho.
  - run. destruct (clientStatusUpdate _ w) as [[err|o] w']; simpl;
      (split; [|by split]); (split; [done|]);
      intros _; eexists; unfold trace; simpl; by left.
Qed.

(** *** The Zookeeper reference *)

Lemma reconcileZk_config_error instance busyBoxImage newStatus w :
  codeBadRequest cfg (solr.ZookeeperRef_ (solr.scSpec instance)) = true →
  ∃ message,
    reconcileZk cfg instance busyBoxImage newStatus w
    = (Ok (Some (NewBadRequest message), newStatus), w, []).
Proof.
  unfold codeBadRequest, reconcileZk.
  destruct (solr.ConnectionInfo _) as [info|]; [done|].
  destruct (solr.ProvidedZookeeper_ _) as [pzk|]; intros Hcfg.
  - rewrite Hcfg. by eexists.
  - by eexists.
Qed.

Lemma reconcileZk_adopts instance busyBoxImage newStatus w info :
  solr.ConnectionInfo (solr.ZookeeperRef_ (solr.scSpec instance))
    = Some info →
  reconcileZk cfg instance busyBoxImage newStatus w
  = (Ok (None, setZookeeperConnectionInfo newStatus info), w, []).
Proof. intros Hinfo. unfold reconcileZk. by rewrite Hinfo. Qed.

Lemma reconcileZk_platform_error instance busyBoxImage newStatus w :
  noBadRequestFromPlatform W →
  codeBadRequest cfg (solr.ZookeeperRef_ (solr.scSpec instance)) = false →
  answersBadRequest (reconcileZk cfg instance busyBoxImage newStatus w)
  = false.
Proof.
  intros (Hown & Hget & Hcreate & Hupdate).
  unfold codeBadRequest, reconcileZk, answersBadRequest, result.
  destruct (solr.ConnectionInfo _) as [info|]; [done|].
  destruct (solr.ProvidedZookeeper_ _) as [pzk|]; [|done].
  intros ->. simpl.
  destruct (SetControllerReference _ _ _) as [err|zkCluster] eqn:Hset;
    [simpl; by eapply Hown|].
  run. destruct (clientGet _ _ w) as [[err|found] w1] eqn:Hg; simpl.
  - destruct (IsNotFound err); run; [|by eapply Hget].
    destruct (clientCreate _ _ w1) as [[err'|o] w2] eqn:Hc; simpl; [|done].
    by eapply Hcreate.
  - destruct (CopyZookeeperClusterFields _ _) as [[|] copied]; run.
    + destruct (clientUpdate _ _ w1) as [[err'|o] w2] eqn:Hu; simpl;
        destruct (zkSpecReplicas zkCluster <? 0); simpl; try done.
      by eapply Hupdate.
    + by destruct (zkSpecReplicas zkCluster <? 0).
Qed.

(** C3, as the code has it.  The step raises a bad request of its own
    exactly when no connection info is given and either no provision request
    is given or the Zookeeper CRD is disabled; it then sends no request and
    leaves the status alone.  A connection info that is given is adopted,
    also next to a provision request.  So when neither the owner wiring nor
    the API server answers a bad request, the step answers one exactly in
    the first case. *)
Theorem reconcileZk_bad_request instance busyBoxImage newStatus w :
  let zkRef := solr.ZookeeperRef_ (solr.scSpec instance) in
  (codeBadRequest cfg zkRef = true →
   ∃ message,
     reconcileZk cfg instance busyBoxImage newStatus w
     = (Ok (Some (NewBadRequest message), newStatus), w, [])) ∧
  (∀ info, solr.ConnectionInfo zkRef = Some info →
     reconcileZk cfg instance busyBoxImage newStatus w
     = (Ok (None, setZookeeperConnectionInfo newStatus info), w, [])) ∧
  (noBadRequestFromPlatform W →
   answersBadRequest (reconcileZk cfg instance busyBoxImage newStatus w)
   = codeBadRequest cfg zkRef).
Proof.
  split; [apply reconcileZk_config_error|].
  split; [intros info; apply reconcileZk_adopts|].
  intros Hplatform.
  destruct (codeBadRequest cfg _) eqn:Hcode.
  - destruct (reconcileZk_config_error instance busyBoxImage newStatus w Hcode)
      as [message ->]. reflexivity.
  - by apply reconcileZk_platform_error.
Qed.

(** C5.  When a Zookeeper cluster is to be provided and is found, the
    status gets one entry per replica of the generated cluster, each the
    ordinal-indexed headless-service host of the found cluster with its
    client port, joined by commas; the external connection string is the
    found cluster's external endpoint, or unset when that is empty; and the
    only error the step can answer is that of the update of the cluster. *)
Theorem reconcileZk_provided_connection
    instance busyBoxImage newStatus w pzk zkCluster found w1 :
  solr.ConnectionInfo (solr.ZookeeperRef_ (solr.scSpec instance)) = None →
  solr.ProvidedZookeeper_ (solr.ZookeeperRef_ (solr.scSpec instance))
    = Some pzk →
  useZkCRD cfg = true →
  SetControllerReference instance KZookeeperCluster
    (GenerateZookeeperCluster instance pzk) = inr zkCluster →
  clientGet KZookeeperCluster (keyOf (zkMeta zkCluster)) w = (inr found, w1) →
  0 ≤ zkSpecReplicas zkCluster →
  let merged := CopyZookeeperClusterFields zkCluster found in
  let answer :=
    if merged.1 then clientUpdate KZookeeperCluster merged.2 w1
    else (inr merged.2, w1) in
  let found' := written merged.2 answer.1 in
  let entries := zkEntry found' <$> seqZ 0 (zkSpecReplicas zkCluster) in
  ∃ newStatus' sent,
    reconcileZk cfg instance busyBoxImage newStatus w
    = (Ok (errOf answer.1, newStatus'), answer.2, sent) ∧
    (merged.1 = false → errOf answer.1 = None) ∧
    solr.ZookeeperConnectionInfo_ newStatus'
    = {| solr.InternalConnectionString := Join entries ",";
         solr.ExternalConnectionString :=
           if bool_decide (zkExternalClientEndpoint found' = "") then None
           else Some (zkExternalClientEndpoint found');
         solr.ChRoot := solr.pzkChRoot pzk |} ∧
    length entries = Z.to_nat (zkSpecReplicas zkCluster) ∧
    (∀ i, 0 ≤ i < zkSpecReplicas zkCluster →
       entries !! Z.to_nat i
       = Some (Name (zkMeta found') +:+ "-" +:+ Itoa i +:+ "." +:+
               Name (zkMeta found') +:+ "-headless." +:+
               Namespace (zkMeta found') +:+ ":" +:+
               Itoa (ZookeeperPortsClient found'))).
Proof.
  intros Hinfo Hpzk Hcrd Hset Hget Hrep. simpl.
  unfold reconcileZk. rewrite Hinfo, Hpzk, Hcrd, Hset. simpl.
  run. rewrite Hget. simpl.
  destruct (CopyZookeeperClusterFields zkCluster found) as [changed copied].
  simpl.
  assert (Hneg : (zkSpecReplicas zkCluster <? 0) = false) by lia.
  assert (Hext : ∀ c : ZookeeperCluster,
            (if util.eqs "" (zkExternalClientEndpoint c) then None
             else Some (zkExternalClientEndpoint c))
            = (if bool_decide (zkExternalClientEndpoint c = "") then None
               else Some (zkExternalClientEndpoint c))).
  { intros c. unfold util.eqs. repeat case_bool_decide; congruence. }
  assert (Hentries : ∀ c : ZookeeperCluster,
    length (zkEntry c <$> seqZ 0 (zkSpecReplicas zkCluster))
      = Z.to_nat (zkSpecReplicas zkCluster) ∧
    ∀ i, 0 ≤ i < zkSpecReplicas zkCluster →
      (zkEntry c <$> seqZ 0 (zkSpecReplicas zkCluster)) !! Z.to_nat i
      = Some (zkEntry c i)).
  { intros c. split; [by rewrite length_fmap, length_seqZ|].
    intros i Hi. rewrite list_lookup_fmap.
    rewrite (lookup_seqZ_lt 0 (zkSpecReplicas zkCluster) (Z.to_nat i)) by lia.
    simpl. do 2 f_equal. lia. }
  destruct changed; run.
  - destruct (clientUpdate KZookeeperCluster copied w1) as [u w2]. simpl.
    rewrite Hneg. run. eexists _, _. split; [reflexivity|].
    split; [done|]. simpl. rewrite Hext. split; [done|]. apply Hentries.
  - rewrite Hneg. run. eexists _, _. split; [reflexivity|].
    split; [done|]. simpl. rewrite Hext. split; [done|]. apply Hentries.
Qed.

(** *** The services of the nodes *)

(** C6.  With external addresses advertised, the loop over the nodes
    reconciles the service of every node, whatever addresses it meets: it
    ends early only on an error of a node service.  An empty address raises
    the flag that defers the StatefulSet, and every address that is not
    empty is entered in the host map. *)
Theorem node_loop_visits_every_node instance ext :
  solr.External (solr.scSpec instance) = Some ext →
  solr.UseExternalAddress ext = true →
  ∀ nodeNames block hostNameIpMap w,
    reconcileNodeServices instance nodeNames block hostNameIpMap w
    = (r ← reconcileEveryNode instance nodeNames;
       mret (match r with
             | inl returned => inl returned
             | inr ips =>
                 inr (collectAddresses instance block hostNameIpMap ips)
             end)) w.
Proof.
  intros Hext Huse nodeNames.
  induction nodeNames as [|nodeName rest IH]; intros block hostNameIpMap w.
  - simpl. run. unfold collectAddresses. simpl. by rewrite orb_false_r.
  - simpl. rewrite !run_bind.
    destruct (reconcileNodeService instance nodeName w)
      as [[[[[err|] ip]|] w1] t1]; [|  |done].
    + run. by rewrite !app_nil_r.
    + rewrite Hext, Huse. unfold orReturn. rewrite run_bind.
      destruct (util.eqs ip "") eqn:Hip; rewrite IH, run_bind;
        destruct (reconcileEveryNode instance rest w1)
          as [[[[e|ips]|] w2] t2]; run; rewrite ?app_nil_r; try done;
        unfold collectAddresses; simpl; rewrite Hip; simpl;
        by rewrite ?orb_true_r.
Qed.

(** *** What a pass sends *)

Lemma trace_bind_Forall {A B} P (m : M W A) (f : A → M W B) w :
  Forall P (trace (m w)) →
  (∀ a w1 t1, m w = (Ok a, w1, t1) → Forall P (trace (f a w1))) →
  Forall P (trace ((m ≫= f) w)).
Proof.
  rewrite run_bind. destruct (m w) as [[[a|] w1] t1]; [|done].
  intros Hm Hf. specialize (Hf a w1 t1 eq_refl).
  destruct (f a w1) as [[r w2] t2]. unfold trace in *. simpl in *.
  by apply Forall_app.
Qed.

Lemma sends_ret {A} P (a : A) : sends P (mret a : M W A).
Proof. intros w. constructor. Qed.

Lemma sends_panic {A} P : sends P (panic : M W A).
Proof. intros w. constructor. Qed.

Lemma sends_bind {A B} P (m : M W A) (f : A → M W B) :
  sends P m → (∀ a, sends P (f a)) → sends P (m ≫= f).
Proof. intros Hm Hf w. apply trace_bind_Forall; [done|]. intros. apply Hf. Qed.

Lemma sends_orReturn {E A B} P (m : M W (E + A)) (k : A → M W (E + B)) :
  sends P m → (∀ a, sends P (k a)) → sends P (orReturn m k).
Proof.
  intros Hm Hk. apply sends_bind; [done|].
  intros [e|a]; [apply sends_ret|apply Hk].
Qed.

Lemma sends_request {A} (P : Call → Prop) c (f : W → A * W) :
  P c → sends P (request c f).
Proof. intros Hc w. rewrite run_request. by repeat constructor. Qed.

(** Decompose a step into its requests. *)
Ltac sends_step :=
  first
    [ apply sends_ret
    | apply sends_panic
    | apply sends_request; done
    | apply sends_orReturn; [|intros]
    | apply sends_bind; [|intros]
    | match goal with
      | |- sends _ (match ?x with _ => _ end) => destruct x
      | |- sends _ (let '(_, _) := ?x in _) => destruct x
      end ].

Lemma fetchInstance_keeps req : sends keepsStatefulSet (fetchInstance cfg req).
Proof. unfold fetchInstance, Get, Update. repeat sends_step. Qed.

Lemma reconcileZk_keeps instance busyBoxImage newStatus :
  sends keepsStatefulSet (reconcileZk cfg instance busyBoxImage newStatus).
Proof. unfold reconcileZk, Get, Create, Update. repeat sends_step. Qed.

Lemma resolveZk_keeps instance : sends keepsStatefulSet (resolveZk cfg instance).
Proof.
  unfold resolveZk. repeat sends_step. apply reconcileZk_keeps.
Qed.

Lemma reconcileCommonService_keeps instance :
  sends keepsStatefulSet (reconcileCommonService instance).
Proof.
  unfold reconcileCommonService, Get, Create, Update. repeat sends_step.
Qed.

Lemma reconcileNodeService_keeps instance nodeName :
  sends keepsStatefulSet (reconcileNodeService instance nodeName).
Proof.
  unfold reconcileNodeService, Get, Create, Update. repeat sends_step.
Qed.

Lemma reconcileNodeServices_keeps instance nodeNames :
  ∀ block hostNameIpMap,
    sends keepsStatefulSet
      (reconcileNodeServices instance nodeNames block hostNameIpMap).
Proof.
  induction nodeNames as [|nodeName rest IH]; intros block hostNameIpMap;
    simpl; [apply sends_ret|].
  apply sends_bind; [apply reconcileNodeService_keeps|].
  intros [[err|] ip]; [apply sends_ret|].
  destruct (solr.External _) as [ext|]; [|apply sends_panic].
  destruct (solr.UseExternalAddress ext); [|apply IH].
  destruct (util.eqs ip ""); apply IH.
Qed.

Lemma reconcileAllNodeServices_keeps instance solrNodeNames :
  sends keepsStatefulSet (reconcileAllNodeServices instance solrNodeNames).
Proof.
  unfold reconcileAllNodeServices.
  destruct (UsesIndividualNodeServices instance);
    [apply reconcileNodeServices_keeps|apply sends_ret].
Qed.

Lemma reconcileHeadlessService_keeps instance :
  sends keepsStatefulSet (reconcileHeadlessService instance).
Proof.
  unfold reconcileHeadlessService, Get, Create, Update. repeat sends_step.
Qed.

Lemma reconcileConfigMap_keeps instance :
  sends keepsStatefulSet (reconcileConfigMap instance).
Proof.
  unfold reconcileConfigMap, Get, Create, Update. repeat sends_step.
Qed.

Lemma recomputeStatus_keeps instance newStatus :
  sends keepsStatefulSet (recomputeStatus instance newStatus).
Proof.
  unfold recomputeStatus, reconcileCloudStatus, List_. repeat sends_step.
Qed.

Lemma reconcileIngress_keeps instance solrNodeNames :
  sends keepsStatefulSet (reconcileIngress cfg instance solrNodeNames).
Proof.
  unfold reconcileIngress, Get, Create, Update. repeat sends_step.
Qed.

Lemma persistStatus_keeps instance newStatus :
  sends keepsStatefulSet (persistStatus instance newStatus).
Proof. unfold persistStatus, StatusUpdate. repeat sends_step. Qed.

Lemma reconcileStatefulSet_deferred
    instance newStatus hostNameIpMap block w :
  Contains (ZkConnectionString newStatus) ":" = false →
  reconcileStatefulSet instance newStatus hostNameIpMap block w
  = (Ok (inr newStatus), w, []).
Proof. intros Hzk. unfold reconcileStatefulSet. by rewrite Hzk. Qed.

Lemma reconcileResources_keeps instance newStatus :
  Contains (ZkConnectionString newStatus) ":" = false →
  sends keepsStatefulSet (reconcileResources cfg instance newStatus).
Proof.
  intros Hzk. unfold reconcileResources.
  apply sends_orReturn; [apply reconcileCommonService_keeps|intros _].
  apply sends_orReturn; [apply reconcileAllNodeServices_keeps|].
  intros [block hostNameIpMap].
  apply sends_orReturn; [apply reconcileHeadlessService_keeps|intros _].
  apply sends_orReturn; [apply reconcileConfigMap_keeps|intros _].
  apply sends_orReturn.
  { intros w. by rewrite reconcileStatefulSet_deferred. }
  intros newStatus1.
  apply sends_orReturn; [apply recomputeStatus_keeps|intros newStatus2].
  apply sends_orReturn; [apply reconcileIngress_keeps|intros _].
  apply persistStatus_keeps.
Qed.

(** C1.  When the connection string of the status holds no [:], the
    StatefulSet step does nothing: it sends no request, leaves the world and
    the status as they are, and answers no error.  And a pass whose status,
    once the Zookeeper reference is resolved, has such a connection string
    sends neither a create nor an update of a StatefulSet. *)
Theorem statefulSet_deferred_without_connection :
  (∀ instance newStatus hostNameIpMap block w,
     Contains (ZkConnectionString newStatus) ":" = false →
     reconcileStatefulSet instance newStatus hostNameIpMap block w
     = (Ok (inr newStatus), w, [])) ∧
  (∀ req w newStatus,
     resolved cfg req w = Some newStatus →
     Contains (ZkConnectionString newStatus) ":" = false →
     Forall (λ c, writesStatefulSet c = false) (trace (Reconcile cfg req w))).
Proof.
  split; [apply reconcileStatefulSet_deferred|].
  intros req w newStatus Hres Hzk. unfold Reconcile.
  apply trace_bind_Forall;
    [|intros [returned|[]] w' t' _; apply (sends_ret keepsStatefulSet)].
  unfold resolved in Hres. unfold orReturn in *.
  rewrite run_bind in Hres.
  apply trace_bind_Forall; [apply fetchInstance_keeps|].
  intros [returned|instance] w1 t1 Hfetch;
    [apply (sends_ret keepsStatefulSet)|].
  rewrite Hfetch in Hres.
  apply trace_bind_Forall; [apply resolveZk_keeps|].
  intros [returned|newStatus1] w2 t2 Hzk1;
    [apply (sends_ret keepsStatefulSet)|].
  rewrite Hzk1 in Hres. simpl in Hres. injection Hres as ->.
  by apply reconcileResources_keeps.
Qed.

End ReconcilerFacts.

(** ** The reconciler on the sample platform *)

Lemma sample_platform_answers_no_bad_request :
  noBadRequestFromPlatform sample.Cluster.
Proof.
  repeat split.
  - intros owner k o err Hset. discriminate Hset.
  - intros k key w err w' Hget. simpl in Hget. unfold sample.get in Hget.
    destruct (find _ _); by inversion Hget.
  - intros k o w err w' Hcreate. discriminate Hcreate.
  - intros k o w err w' Hupdate. simpl in Hupdate.
    unfold sample.update in Hupdate.
    destruct (existsb _ _); by inversion Hupdate.
Qed.

(** A cloud whose connection string is [zk-pending/]: the pass creates the
    common service, the headless service and the config map, and no
    StatefulSet. *)
Lemma statefulSet_deferred_without_connection_witness :
  Forall (λ c, writesStatefulSet c = false)
    (trace (controllers.Reconcile cloud_example.settings
              cloud_example.request cloud_example.pendingCluster)).
Proof.
  eapply (proj2 (statefulSet_deferred_without_connection
                   (W := sample.Cluster) cloud_example.settings)).
  - vm_compute. reflexivity.
  - vm_compute. reflexivity.
Defined.

(** Neither reference set: a bad request; a connection info set: adopted. *)
Lemma reconcileZk_bad_request_witness :
  answersBadRequest
    (controllers.reconcileZk cloud_example.settings
       (cloud_example.cloudWith cloud_example.neitherZk)
       (cloud_example.image "1.28") solr.emptyStatus
       cloud_example.emptyCluster) = true ∧
  result
    (controllers.reconcileZk cloud_example.settings cloud_example.cloud
       (cloud_example.image "1.28") solr.emptyStatus
       cloud_example.emptyCluster)
  = Ok (None,
        controllers.setZookeeperConnectionInfo solr.emptyStatus
          {| solr.InternalConnectionString := "zk.example.com:2181";
             solr.ExternalConnectionString := None;
             solr.ChRoot := "/" |}).
Proof.
  split.
  - destruct (reconcileZk_bad_request cloud_example.settings
                (cloud_example.cloudWith cloud_example.neitherZk)
                (cloud_example.image "1.28") solr.emptyStatus
                cloud_example.emptyCluster) as (Hcfg & _ & Hiff).
    destruct (Hcfg eq_refl) as [message Hrun].
    rewrite Hiff by apply sample_platform_answers_no_bad_request.
    reflexivity.
  - destruct (reconcileZk_bad_request cloud_example.settings
                cloud_example.cloud (cloud_example.image "1.28")
                solr.emptyStatus cloud_example.emptyCluster)
      as (_ & Hadopt & _).
    by rewrite (Hadopt _ eq_refl).
Defined.

(** C3 as stated fails: with both a connection info and a provision request
    the rule of exactly one is violated, and the step answers no error. *)
Lemma both_references_are_no_bad_request :
  answersBadRequest
    (controllers.reconcileZk cloud_example.settings
       (cloud_example.cloudWith cloud_example.bothZk)
       (cloud_example.image "1.28") solr.emptyStatus
       cloud_example.emptyCluster)
  ≠ specBadRequest cloud_example.settings
      (solr.ZookeeperRef_
         (solr.scSpec (cloud_example.cloudWith cloud_example.bothZk))).
Proof. vm_compute. discriminate. Qed.

(** The Zookeeper cluster of [demo] with one replica. *)
Lemma reconcileZk_provided_connection_witness :
  ∃ newStatus',
    result
      (controllers.reconcileZk cloud_example.settings
         (cloud_example.cloudWith (cloud_example.providedZk 1))
         (cloud_example.image "1.28") solr.emptyStatus
         cloud_example.zkCluster) = Ok (None, newStatus') ∧
    solr.ZookeeperConnectionInfo_ newStatus'
    = {| solr.InternalConnectionString :=
           "demo-solrcloud-zookeeper-0.demo-solrcloud-zookeeper-headless.search:2181";
         solr.ExternalConnectionString := None;
         solr.ChRoot := "/solr" |}.
Proof.
  destruct (reconcileZk_provided_connection cloud_example.settings
              (cloud_example.cloudWith (cloud_example.providedZk 1))
              (cloud_example.image "1.28") solr.emptyStatus
              cloud_example.zkCluster
              {| solr.pzkChRoot := "/solr"; solr.pzkReplicas := Some 1 |}
              (GenerateZookeeperCluster
                 (cloud_example.cloudWith (cloud_example.providedZk 1))
                 {| solr.pzkChRoot := "/solr"; solr.pzkReplicas := Some 1 |})
              {| zkMeta := {| Name := "demo-solrcloud-zookeeper";
                              Namespace := "search"; Labels := None;
                              Annotations := None |};
                 zkSpecReplicas := 1; zkSpecPorts := [];
                 zkExternalClientEndpoint := "" |}
              cloud_example.zkCluster)
    as (st & sent & Hrun & _ & Hinfo & _).
  - reflexivity.
  - reflexivity.
  - reflexivity.
  - reflexivity.
  - reflexivity.
  - simpl. lia.
  - exists st. rewrite Hrun. split; [reflexivity|].
    rewrite Hinfo. vm_compute. reflexivity.
Defined.

(** The first node has no address yet, the second has one: both services
    are reconciled, the flag is raised and the second address is kept. *)
Lemma node_loop_visits_every_node_witness :
  result
    (controllers.reconcileNodeServices cloud_example.externalCloud
       ["demo-solrcloud-0"; "demo-solrcloud-1"] false ∅
       cloud_example.servicesCluster)
  = Ok (inr (true, {[ "demo-solrcloud-1.search" := "10.0.0.7" ]})) ∧
  trace
    (controllers.reconcileNodeServices cloud_example.externalCloud
       ["demo-solrcloud-0"; "demo-solrcloud-1"] false ∅
       cloud_example.servicesCluster)
  = [CallGet KService
       {| nnNamespace := "search"; nnName := "demo-solrcloud-0" |};
     CallGet KService
       {| nnNamespace := "search"; nnName := "demo-solrcloud-1" |}].
Proof.
  rewrite (node_loop_visits_every_node cloud_example.externalCloud
             cloud_example.external eq_refl eq_refl).
  split; vm_compute; reflexivity.
Defined.

(** No SolrCloud is stored under the requested name. *)
Lemma fetch_failure_ends_the_pass_witness :
  controllers.Reconcile cloud_example.settings cloud_example.request
    cloud_example.emptyCluster
  = (Ok ({| controllers.Requeue := false |}, None),
     cloud_example.emptyCluster,
     [CallGet KSolrCloud cloud_example.request]).
Proof.
  apply (fetch_failure_ends_the_pass cloud_example.settings
           cloud_example.request cloud_example.emptyCluster
           sample.notFound cloud_example.emptyCluster).
  reflexivity.
Defined.

(** A status with three replicas against the empty stored one, and the
    stored one against itself. *)
Lemma status_written_iff_changed_witness :
  trace
    (controllers.persistStatus cloud_example.pendingCloud
       (controllers.setReplicas solr.emptyStatus 3 3)
       cloud_example.pendingCluster)
  = [CallStatusUpdate
       (controllers.setStatus cloud_example.pendingCloud
          (controllers.setReplicas solr.emptyStatus 3 3))] ∧
  controllers.persistStatus cloud_example.pendingCloud solr.emptyStatus
    cloud_example.pendingCluster
  = (Ok (inr ()), cloud_example.pendingCluster, []).
Proof.
  split.
  - apply (status_written_iff_changed cloud_example.pendingCloud
             (controllers.setReplicas solr.emptyStatus 3 3)
             cloud_example.pendingCluster).
    simpl. discriminate.
  - apply (status_written_iff_changed cloud_example.pendingCloud
             solr.emptyStatus cloud_example.pendingCluster).
    reflexivity.
Defined.

(** * Further properties of the code *)

(** ** The exporter's deployment, config map, service and ingress rule *)

Lemma string_app_assoc (a b c : string) : (a +:+ b) +:+ c = a +:+ b +:+ c.
Proof.
  induction a as [|x a IH]; [done|].
  change (String x ((a +:+ b) +:+ c) = String x (a +:+ b +:+ c)).
  by rewrite IH.
Qed.

Section ExporterObjects.
Context `{SolrAPI}.
Import util metrics.

Implicit Types (spe : solr.SolrPrometheusExporter) (info : SolrConnectionInfo).

(** Unfold the generator on an exporter whose image is known. *)
Ltac generate spe Himg :=
  unfold GenerateSolrPrometheusExporterDeployment;
  destruct (exporterConfig spe) as [[vols mounts] fArgs] eqn:Hconfig;
  rewrite Himg.

(** X1.  The generator panics exactly on an exporter without image. *)
Theorem Generate_panics_iff_no_image spe info :
  GenerateSolrPrometheusExporterDeployment spe info = Panic ↔
  solr.Image (solr.speSpec spe) = None.
Proof.
  split; [|apply Generate_panics_without_image].
  destruct (solr.Image (solr.speSpec spe)) as [image|] eqn:Himg; [|done].
  generate spe Himg. discriminate.
Qed.

(** X2.  Whatever labels the exporter carries, the selector of the
    generated deployment is matched by the labels of its pod template, and
    the deployment carries the labels of the template. *)
Theorem deployment_selects_its_pods spe info :
  is_Some (solr.Image (solr.speSpec spe)) →
  ∃ deployment spe',
    GenerateSolrPrometheusExporterDeployment spe info
      = Ok (deployment, spe') ∧
    dsSelector (depSpec deployment)
      ⊆ ptLabels (dsTemplate (depSpec deployment)) ∧
    Labels (depMeta deployment)
      = Some (ptLabels (dsTemplate (depSpec deployment))).
Proof.
  intros [image Himg]. generate spe Himg.
  eexists _, _. split; [reflexivity|]. simpl. split; [|done].
  unfold solr.SharedLabels, solr.SharedLabelsWith.
  apply map_subseteq_spec. intros key value.
  rewrite !lookup_insert. repeat case_decide; by rewrite ?lookup_empty.
Qed.

(** X3.  A Zookeeper connection string takes precedence: when one is
    given, the standalone address has no effect on the deployment. *)
Theorem cloud_connection_takes_precedence spe zk address :
  zk ≠ "" →
  GenerateSolrPrometheusExporterDeployment spe
    {| CloudZkConnnectionString := zk; StandaloneAddress := address |}
  = GenerateSolrPrometheusExporterDeployment spe
      {| CloudZkConnnectionString := zk; StandaloneAddress := "" |}.
Proof.
  intros Hzk. unfold GenerateSolrPrometheusExporterDeployment, exporterArgs.
  simpl. unfold eqs. by rewrite (bool_decide_eq_false_2 _ Hzk).
Qed.

(** X4.  The generator changes the exporter at most once: on the exporter
    as a first call leaves it, a second call answers the same deployment and
    leaves the exporter as it is. *)
Theorem Generate_twice spe info deployment spe' :
  GenerateSolrPrometheusExporterDeployment spe info = Ok (deployment, spe') →
  GenerateSolrPrometheusExporterDeployment spe' info = Ok (deployment, spe').
Proof.
  destruct spe as [meta [reference [image|] [[po|] dopts cmopts]
                           entrypoint threads interval config] status];
    unfold GenerateSolrPrometheusExporterDeployment, exporterArgs,
      exporterConfig, setPodOptions; cbn;
    destruct (eqs config "") eqn:Hconfig; cbn; intros Hrun;
    try discriminate Hrun; injection Hrun as <- <-; cbn;
    by rewrite Hconfig.
Qed.

(** X5.  On an exporter whose [PodOptions] is set, the generator leaves the
    exporter as it is. *)
Theorem Generate_keeps_exporter_with_PodOptions spe info deployment spe' po :
  solr.PodOptions_ (solr.CustomPrometheusKubeOptions_ (solr.speSpec spe))
    = Some po →
  GenerateSolrPrometheusExporterDeployment spe info = Ok (deployment, spe') →
  spe' = spe.
Proof.
  intros Hpo. unfold GenerateSolrPrometheusExporterDeployment.
  destruct (exporterConfig spe) as [[vols mounts] fArgs].
  destruct (solr.Image (solr.speSpec spe)) as [image|]; [|discriminate].
  rewrite Hpo. by intros [= _ <-].
Qed.

(** X6.  The config map of the exporter is wired through: when a config is
    given, the one volume of the deployment names the config map that
    [GenerateMetricsConfigMap] makes and a key of its data, the container
    mounts that volume, and the [-f] argument is the mounted file; when no
    config is given, the deployment has no volume and no mount. *)
Theorem deployment_mounts_the_metrics_config spe info :
  is_Some (solr.Image (solr.speSpec spe)) →
  ∃ deployment spe' container,
    GenerateSolrPrometheusExporterDeployment spe info
      = Ok (deployment, spe') ∧
    psContainers (ptSpec (dsTemplate (depSpec deployment))) = [container] ∧
    if bool_decide (solr.Config (solr.speSpec spe) = "") then
      psVolumes (ptSpec (dsTemplate (depSpec deployment))) = None ∧
      ctVolumeMounts container = None
    else
      ∃ volume source item mount,
        psVolumes (ptSpec (dsTemplate (depSpec deployment))) = Some [volume] ∧
        volConfigMap volume = Some source ∧
        cmvsName source = Name (cmMeta (GenerateMetricsConfigMap spe)) ∧
        cmvsItems source = [item] ∧
        default ∅ (cmData (GenerateMetricsConfigMap spe)) !! ktpKey item
          = Some (solr.Config (solr.speSpec spe)) ∧
        ctVolumeMounts container = Some [mount] ∧
        vmName mount = volName volume ∧
        ["-f"; vmMountPath mount +:+ "/" +:+ ktpPath item]
          `suffix_of` ctArgs container.
Proof.
  intros [image Himg].
  unfold GenerateSolrPrometheusExporterDeployment, exporterArgs,
    exporterConfig, eqs.
  rewrite Himg. case_bool_decide as Hconfig; simpl.
  - eexists _, _, _. by repeat split.
  - eexists _, _, _. split; [reflexivity|]. split; [reflexivity|]. simpl.
    eexists _, _, _, _. repeat split; try reflexivity.
    simpl. do 4 apply suffix_cons_r. by do 2 apply suffix_app_r.
Qed.

(** X7.  The metrics service selects the pods of the deployment: its
    selector is the selector of the deployment, its one port targets a port
    of the exporter's container, and the port annotated for Prometheus is
    the port the service exposes. *)
Theorem metrics_service_targets_the_deployment spe info :
  is_Some (solr.Image (solr.speSpec spe)) →
  ∃ deployment spe' container port,
    GenerateSolrPrometheusExporterDeployment spe info
      = Ok (deployment, spe') ∧
    psContainers (ptSpec (dsTemplate (depSpec deployment))) = [container] ∧
    msPorts (GenerateSolrMetricsService spe) = [port] ∧
    msSelector (GenerateSolrMetricsService spe)
      = dsSelector (depSpec deployment) ∧
    spTargetPort port ∈ cpContainerPort <$> ctPorts container ∧
    default ∅ (Annotations (msMeta (GenerateSolrMetricsService spe)))
      !! "prometheus.io/port" = Some (Itoa (spPort port)).
Proof.
  intros [image Himg]. generate spe Himg.
  eexists _, _, _, _. repeat split; try reflexivity.
  simpl. by left.
Qed.

(** X8.  The ingress rule of the exporter routes the host
    [<namespace>-<name>-solr-metrics.<base>] to the metrics service, by its
    name and at the port it exposes. *)
Theorem ingress_rule_routes_to_the_metrics_service spe base :
  irHost (CreateMetricsIngressRule spe base)
    = Namespace (solr.speMeta spe) +:+ "-" +:+ Name (solr.speMeta spe)
      +:+ "-solr-metrics." +:+ base ∧
  Forall (λ backend,
            ibServiceName backend
              = Name (msMeta (GenerateSolrMetricsService spe)) ∧
            ibServicePort backend
              ∈ spPort <$> msPorts (GenerateSolrMetricsService spe))
    (irPaths (CreateMetricsIngressRule spe base)).
Proof.
  split.
  - unfold CreateMetricsIngressRule, MetricsIngressUrl, MetricsIngressPrefix.
    simpl. by rewrite !string_app_assoc.
  - repeat constructor.
Qed.

(** X9.  Copying the fields of a metrics config map makes the data of the
    target those of the source, and asks for an update whenever the data
    differed (a nil map against an empty one included); copying the same
    source again asks for an update only if the labels and annotations
    do. *)
Theorem CopyMetricsConfigMapFields_data
    (copyMeta : ObjectMeta → ObjectMeta → bool * ObjectMeta) from to :
  let copied := CopyMetricsConfigMapFields copyMeta from to in
  cmData copied.2 = cmData from ∧
  cmMeta copied.2 = (copyMeta (cmMeta from) (cmMeta to)).2 ∧
  copied.1
    = (negb (bool_decide (cmData to = cmData from))
       || (copyMeta (cmMeta from) (cmMeta to)).1) ∧
  (CopyMetricsConfigMapFields copyMeta from copied.2).1
    = (copyMeta (cmMeta from) (cmMeta copied.2)).1.
Proof.
  unfold CopyMetricsConfigMapFields. simpl.
  destruct (copyMeta (cmMeta from) (cmMeta to)) as [changed toMeta]. simpl.
  destruct (copyMeta (cmMeta from) toMeta) as [changed' toMeta']. simpl.
  repeat split; try done; by repeat case_bool_decide.
Qed.

End ExporterObjects.

Lemma deployment_selects_its_pods_witness :
  ∃ deployment spe',
    util.GenerateSolrPrometheusExporterDeployment
      exporter_samples.customized exporter_example.connection
      = Ok (deployment, spe') ∧
    dsSelector (depSpec deployment)
      ⊆ ptLabels (dsTemplate (depSpec deployment)) ∧
    ptLabels (dsTemplate (depSpec deployment)) !! "technology"
      = Some "solr-prometheus-exporter".
Proof.
  destruct (deployment_selects_its_pods exporter_samples.customized
              exporter_example.connection)
    as (d & spe' & Hrun & Hsel & _); [by eexists|].
  exists d, spe'. split; [exact Hrun|]. split; [exact Hsel|].
  vm_compute in Hrun. injection Hrun as <- _. vm_compute. reflexivity.
Defined.

Lemma cloud_connection_takes_precedence_witness :
  util.GenerateSolrPrometheusExporterDeployment exporter_example.exporter
    {| util.CloudZkConnnectionString := "zk-0.zk-headless.search:2181/solr";
       util.StandaloneAddress := "http://solr.search:8983/solr" |}
  = util.GenerateSolrPrometheusExporterDeployment exporter_example.exporter
      exporter_example.connection.
Proof.
  apply (cloud_connection_takes_precedence exporter_example.exporter).
  discriminate.
Defined.

Lemma Generate_twice_witness :
  ∃ deployment spe',
    util.GenerateSolrPrometheusExporterDeployment exporter_example.exporter
      exporter_example.connection = Ok (deployment, spe') ∧
    spe' ≠ exporter_example.exporter ∧
    util.GenerateSolrPrometheusExporterDeployment spe'
      exporter_example.connection = Ok (deployment, spe').
Proof.
  eexists _, _. split; [vm_compute; reflexivity|]. split; [discriminate|].
  apply (Generate_twice exporter_example.exporter). vm_compute. reflexivity.
Defined.

Lemma Generate_keeps_exporter_with_PodOptions_witness :
  ∃ deployment,
    util.GenerateSolrPrometheusExporterDeployment
      exporter_samples.customized exporter_example.connection
    = Ok (deployment, exporter_samples.customized).
Proof.
  eexists. 
  assert (Hrun : ∃ d spe',
            util.GenerateSolrPrometheusExporterDeployment
              exporter_samples.customized exporter_example.connection
            = Ok (d, spe')) by (eexists _, _; vm_compute; reflexivity).
  destruct Hrun as (d & spe' & Hrun).
  rewrite <- (Generate_keeps_exporter_with_PodOptions
                exporter_samples.customized exporter_example.connection
                d spe' _ eq_refl Hrun) at 2.
  vm_compute in Hrun. injection Hrun as <- <-. vm_compute. reflexivity.
Defined.

Lemma deployment_mounts_the_metrics_config_witness :
  ∃ deployment spe' container mount,
    util.GenerateSolrPrometheusExporterDeployment
      exporter_samples.customized exporter_example.connection
      = Ok (deployment, spe') ∧
    psContainers (ptSpec (dsTemplate (depSpec deployment))) = [container] ∧
    ctVolumeMounts container = Some [mount] ∧
    vmMountPath mount = "/opt/solr-exporter".
Proof.
  destruct (deployment_mounts_the_metrics_config exporter_samples.customized
              exporter_example.connection)
    as (d & spe' & c & Hrun & Hc & Hconfig); [by eexists|].
  simpl in Hconfig.
  destruct Hconfig as (v & src & item & m & _ & _ & _ & _ & _ & Hm & _ & _).
  exists d, spe', c, m. repeat split; try assumption.
  vm_compute in Hrun. injection Hrun as <- _.
  injection Hc as <-. by injection Hm as <-.
Defined.

Lemma metrics_service_targets_the_deployment_witness :
  ∃ deployment spe',
    util.GenerateSolrPrometheusExporterDeployment
      exporter_samples.customized exporter_example.connection
      = Ok (deployment, spe') ∧
    metrics.msSelector (metrics.GenerateSolrMetricsService
                          exporter_samples.customized)
      = dsSelector (depSpec deployment).
Proof.
  destruct (metrics_service_targets_the_deployment exporter_samples.customized
              exporter_example.connection)
    as (d & spe' & c & port & Hrun & _ & _ & Hsel & _); [by eexists|].
  by exists d, spe'.
Defined.

(** ** Defaults of the exporter *)

Section DefaultsFacts.
Context `{DefaultsAPI} `{SolrAPI}.
Import util defaults.

Implicit Types (spe : solr.SolrPrometheusExporter).

(** X10.  An exporter that went through [WithDefaults] has an image and a
    thread count other than zero, and the deployment generator does not
    panic on it; its meta, status, kube options, entrypoint and config are
    as they were. *)
Theorem defaulted_exporter_can_be_deployed spe info :
  let spe1 := (exporterWithDefaults spe).2 in
  is_Some (solr.Image (solr.speSpec spe1)) ∧
  solr.NumThreads (solr.speSpec spe1) ≠ 0 ∧
  (∃ deployment spe2,
     GenerateSolrPrometheusExporterDeployment spe1 info
     = Ok (deployment, spe2)) ∧
  solr.speMeta spe1 = solr.speMeta spe ∧
  solr.speStatus spe1 = solr.speStatus spe ∧
  solr.CustomPrometheusKubeOptions_ (solr.speSpec spe1)
    = solr.CustomPrometheusKubeOptions_ (solr.speSpec spe) ∧
  solr.ExporterEntrypoint (solr.speSpec spe1)
    = solr.ExporterEntrypoint (solr.speSpec spe) ∧
  solr.Config (solr.speSpec spe1) = solr.Config (solr.speSpec spe).
Proof.
  unfold exporterWithDefaults, specWithDefaults.
  destruct (referenceWithDefaults _ _) as [changed reference].
  destruct (imageWithDefaults _ _ _ _) as [imageChanged image].
  destruct (Z.eqb_spec (solr.NumThreads (solr.speSpec spe)) 0) as [Hz|Hnz];
    simpl; (split; [by eexists|]); (split; [done|]); (split; [|done]);
    unfold GenerateSolrPrometheusExporterDeployment;
    destruct (exporterConfig _) as [[vols mounts] fArgs]; simpl;
    by eexists _, _.
Qed.

(** X11.  The scrape interval is never defaulted, and the [-s] argument
    follows the thread count exactly when the interval is positive: an
    exporter submitted without interval is deployed without [-s]. *)
Theorem scrape_interval_is_never_defaulted spe info :
  let spe1 := (exporterWithDefaults spe).2 in
  solr.ScrapeInterval (solr.speSpec spe1)
    = solr.ScrapeInterval (solr.speSpec spe) ∧
  (exporterArgs spe1 info !! 4%nat = Some "-s" ↔
   0 < solr.ScrapeInterval (solr.speSpec spe)).
Proof.
  unfold exporterWithDefaults, specWithDefaults, exporterArgs, exporterConfig.
  destruct (referenceWithDefaults _ _) as [changed reference].
  destruct (imageWithDefaults _ _ _ _) as [imageChanged image].
  destruct (solr.NumThreads (solr.speSpec spe) =? 0); simpl;
    (split; [done|]);
    destruct (Z.ltb_spec 0 (solr.ScrapeInterval (solr.speSpec spe)));
    simpl; (split; [|done || lia]);
    repeat (destruct (negb _); simpl); try done; intros [=]; lia.
Qed.

(** X12.  Defaults settle in one step: on an exporter in a namespace, and
    with image and connection defaults that settle in one step themselves,
    [WithDefaults] applied to its own result reports no change and leaves
    the exporter as it is. *)
Theorem WithDefaults_settles spe :
  Namespace (solr.speMeta spe) ≠ "" →
  (∀ image,
     imageWithDefaults DefaultSolrRepo DefaultSolrVersion DefaultPullPolicy
       (imageWithDefaults DefaultSolrRepo DefaultSolrVersion
          DefaultPullPolicy image).2
     = (false,
        (imageWithDefaults DefaultSolrRepo DefaultSolrVersion
           DefaultPullPolicy image).2)) →
  (∀ info,
     zkInfoWithDefaults (zkInfoWithDefaults info).2
     = (false, (zkInfoWithDefaults info).2)) →
  exporterWithDefaults (exporterWithDefaults spe).2
  = (false, (exporterWithDefaults spe).2).
Proof.
  intros Hns Himage Hzk.
  assert (Hreference : ∀ sr,
    referenceWithDefaults (Namespace (solr.speMeta spe))
      (referenceWithDefaults (Namespace (solr.speMeta spe)) sr).2
    = (false, (referenceWithDefaults (Namespace (solr.speMeta spe)) sr).2)).
  { intros [[[name ns [info|]]|] standalone];
      unfold referenceWithDefaults, cloudReferenceWithDefaults, eqs; simpl;
      try done.
    - specialize (Hzk info). destruct (zkInfoWithDefaults info) as [c info'].
      simpl in *.
      repeat case_bool_decide; simpl; rewrite Hzk; simpl;
        repeat case_bool_decide; simpl; congruence.
    - repeat case_bool_decide; simpl; repeat case_bool_decide; simpl;
        congruence. }
  unfold exporterWithDefaults, specWithDefaults.
  specialize (Hreference (solr.speSolrReference (solr.speSpec spe))).
  destruct (referenceWithDefaults _ (solr.speSolrReference _))
    as [changed reference]. simpl in Hreference.
  specialize (Himage (default emptyImage (solr.Image (solr.speSpec spe)))).
  destruct (imageWithDefaults _ _ _ (default _ _)) as [imageChanged image].
  simpl in Himage.
  destruct (Z.eqb_spec (solr.NumThreads (solr.speSpec spe)) 0) as [Hz|Hnz];
    simpl; rewrite Hreference, Himage; simpl; [done|].
  destruct (Z.eqb_spec (solr.NumThreads (solr.speSpec spe)) 0); [done|].
  reflexivity.
Qed.

End DefaultsFacts.

Lemma sample_defaults_settle :
  (∀ image,
     imageWithDefaults DefaultSolrRepo DefaultSolrVersion DefaultPullPolicy
       (imageWithDefaults DefaultSolrRepo DefaultSolrVersion
          DefaultPullPolicy image).2
     = (false,
        (imageWithDefaults DefaultSolrRepo DefaultSolrVersion
           DefaultPullPolicy image).2)) ∧
  (∀ info,
     zkInfoWithDefaults (zkInfoWithDefaults info).2
     = (false, (zkInfoWithDefaults info).2)).
Proof.
  split.
  - intros [repo tag policy secret]. simpl.
    unfold exporter_samples.orDefault, util.eqs. simpl.
    repeat case_bool_decide; simpl; repeat case_bool_decide; simpl;
      try done; congruence.
  - intros [internal external chroot]. simpl.
    unfold exporter_samples.orDefault, util.eqs. simpl.
    repeat case_bool_decide; simpl; repeat case_bool_decide; simpl;
      try done; congruence.
Qed.

(** The bare exporter: a first pass of defaults changes it, a second does
    not. *)
Lemma WithDefaults_settles_witness :
  (defaults.exporterWithDefaults exporter_samples.bare).1 = true ∧
  defaults.exporterWithDefaults
    (defaults.exporterWithDefaults exporter_samples.bare).2
  = (false, (defaults.exporterWithDefaults exporter_samples.bare).2).
Proof.
  split; [reflexivity|].
  apply (WithDefaults_settles exporter_samples.bare).
  - discriminate.
  - apply sample_defaults_settle.
  - apply sample_defaults_settle.
Defined.

(** ** More on the status aggregator *)

Section AggregatorFacts.
Context `{SolrAPI} `{UtilPkg}.
Import controllers.

Implicit Types (solrCloud : solr.SolrCloud) (p : Pod) (pods : list Pod).

(** X13.  When no pod that reports container statuses runs another version
    than the target tag (in particular, when no pod is listed), the status
    reports the target tag as [Version] and clears [TargetVersion]. *)
Theorem version_is_target_without_divergence
    solrCloud pods newStatus replicas :
  solr.Replicas (solr.scSpec solrCloud) = Some replicas →
  Forall scannable pods →
  Forall (λ p, divergentVersion (targetTag solrCloud) p = None) pods →
  ∃ newStatus',
    cloudStatus solrCloud pods newStatus = Ok newStatus' ∧
    solr.TargetVersion newStatus' = "" ∧
    solr.Version newStatus' = targetTag solrCloud.
Proof.
  intros Hr Hall Hnone.
  destruct (cloudStatus_scanned solrCloud pods newStatus replicas Hr Hall)
    as (st & Hrun & _ & _ & Hv).
  exists st. split; [done|].
  rewrite (omap_all_None _ pods Hnone) in Hv. by inversion Hv.
Qed.

Lemma forallb_csReady (statuses : list ContainerStatus) :
  forallb csReady statuses = true ↔
  Forall (λ c, csReady c = true) statuses.
Proof.
  induction statuses as [|c statuses IH]; simpl.
  - split; [constructor|done].
  - rewrite andb_true_iff, IH. split.
    + intros [Hc Hrest]. by constructor.
    + by inversion 1.
Qed.

(** X14.  The per-node array has one entry per listed pod; and when the pod
    names are distinct, every pod has an entry under its name, with the node
    the pod runs on, with the version it runs (empty while it reports no
    container status), and ready exactly when the pod reports at least one
    container status and all its container statuses are ready. *)
Theorem every_pod_has_its_node_status solrCloud pods newStatus replicas :
  solr.Replicas (solr.scSpec solrCloud) = Some replicas →
  Forall scannable pods →
  ∃ newStatus' nodes,
    cloudStatus solrCloud pods newStatus = Ok newStatus' ∧
    solr.SolrNodes newStatus' = Some nodes ∧
    length nodes = length pods ∧
    (NoDup (podName <$> pods) →
     ∀ p, p ∈ pods →
       ∃ node, node ∈ nodes ∧
         solr.nsName node = podName p ∧
         solr.nsNodeName node = psNodeName (podSpec p) ∧
         solr.nsVersion node = default "" (runningVersion p) ∧
         (solr.nsReady node = true ↔
          podContainerStatuses p ≠ [] ∧
          Forall (λ c, csReady c = true) (podContainerStatuses p))).
Proof.
  intros Hr Hall.
  destruct (cloudStatus_scanned solrCloud pods newStatus replicas Hr Hall)
    as (st & Hrun & Hnodes & _).
  exists st, (solrNodes (scanned solrCloud scan0 pods)).
  split; [done|]. split; [done|]. split.
  - unfold solrNodes, scanned, scan0, sortStrings. simpl.
    rewrite length_fmap.
    rewrite (Permutation_length (merge_sort_Permutation String.le _)).
    by rewrite length_fmap.
  - intros Hnd p Hp. exists (nodeStatusOf solrCloud p). split.
    + unfold solrNodes, scanned, scan0. cbn [nodeStatusMap nodeNames app].
      apply (list_elem_of_fmap_2' _ _ (podName p)).
      * unfold sortStrings. rewrite merge_sort_Permutation.
        by apply list_elem_of_fmap_2.
      * by rewrite nodeStatusMap_pod.
    + split; [done|]. split; [done|]. split; [done|].
      unfold nodeStatusOf; simpl.
      destruct (podContainerStatuses p) as [|c cs] eqn:Hcs.
      * split; [done|]. by intros [? _].
      * change (csReady c && forallb csReady cs)
          with (forallb csReady (c :: cs)).
        rewrite forallb_csReady. split; [by intros ?|by intros [_ ?]].
Qed.

Lemma scanPods_panics solrCloud pods : ∀ acc,
  Exists (λ p, podContainerStatuses p ≠ [] ∧ psContainers (podSpec p) = [])
    pods →
  scanPods solrCloud acc pods = Panic.
Proof.
  induction pods as [|p pods IH]; intros acc Hex; [by inversion Hex|].
  simpl. destruct (scanPod solrCloud acc p) as [acc'|] eqn:Hscan; [|done].
  inversion_clear Hex as [? ? [Hstatuses Hcontainers]|? ? Hrest];
    [|by apply IH].
  unfold scanPod, podVersion in Hscan.
  destruct (podContainerStatuses p); [done|].
  by rewrite Hcontainers in Hscan.
Qed.

Lemma scannable_or_not pods :
  Forall scannable pods ∨
  Exists (λ p, podContainerStatuses p ≠ [] ∧ psContainers (podSpec p) = [])
    pods.
Proof.
  induction pods as [|p pods [IH|IH]]; [by left| |by right; right].
  unfold scannable.
  destruct (podContainerStatuses p) as [|c cs] eqn:Hcs;
    [left; constructor; [by left|done]|].
  destruct (psContainers (podSpec p)) as [|ct cts] eqn:Hct.
  - right. left. by rewrite Hcs, Hct.
  - left. constructor; [right; by rewrite Hct|done].
Qed.

(** X15.  The aggregator panics exactly when the replicas of the spec are
    nil or some listed pod reports container statuses without having a
    container. *)
Theorem cloudStatus_panics_iff solrCloud pods newStatus :
  cloudStatus solrCloud pods newStatus = Panic ↔
  solr.Replicas (solr.scSpec solrCloud) = None ∨
  Exists (λ p, podContainerStatuses p ≠ [] ∧ psContainers (podSpec p) = [])
    pods.
Proof.
  split.
  - destruct (scannable_or_not pods) as [Hall|Hex]; [|by right].
    destruct (solr.Replicas (solr.scSpec solrCloud)) as [replicas|] eqn:Hr;
      [|by left].
    destruct (cloudStatus_ok solrCloud pods newStatus replicas Hr Hall)
      as [st ->]. discriminate.
  - unfold cloudStatus. intros [Hr|Hex].
    + rewrite Hr. by destruct (scanPods _ _ _).
    + by rewrite scanPods_panics.
Qed.

(** X16.  Recomputing the status is stable: on the status it answered, and
    the same pods, the aggregator answers that status again. *)
Theorem cloudStatus_is_stable solrCloud pods newStatus newStatus' :
  cloudStatus solrCloud pods newStatus = Ok newStatus' →
  cloudStatus solrCloud pods newStatus' = Ok newStatus'.
Proof.
  unfold cloudStatus.
  destruct (scanPods solrCloud scan0 pods) as [acc|]; [|discriminate].
  destruct (solr.Replicas (solr.scSpec solrCloud)) as [replicas|];
    [|discriminate].
  destruct (otherVersions acc) as [|v vs]; intros [= <-];
    unfold setCloudStatus; simpl;
    destruct ((backupRestoreReadyPods acc =? replicas)
              && (0 <? backupRestoreReadyPods acc));
    destruct (solr.External (solr.scSpec solrCloud)) as [ext|];
    try destruct (negb (solr.HideCommon ext)); reflexivity.
Qed.

End AggregatorFacts.

Lemma version_is_target_without_divergence_witness :
  ∃ newStatus',
    controllers.cloudStatus cloud_example.cloud
      [cloud_example.mkPod "pod-a" "v2" []] solr.emptyStatus
      = Ok newStatus' ∧
    solr.TargetVersion newStatus' = "" ∧
    solr.Version newStatus' = "v2".
Proof.
  apply (version_is_target_without_divergence cloud_example.cloud
           [cloud_example.mkPod "pod-a" "v2" []] solr.emptyStatus 3).
  - reflexivity.
  - all_scannable.
  - repeat constructor.
Defined.

Lemma every_pod_has_its_node_status_witness :
  ∃ newStatus' nodes node,
    controllers.cloudStatus cloud_example.cloud
      [cloud_example.mkPod "pod-b" "v2" []; cloud_example.mkPod "pod-a" "v1" []]
      solr.emptyStatus = Ok newStatus' ∧
    solr.SolrNodes newStatus' = Some nodes ∧
    node ∈ nodes ∧
    solr.nsName node = "pod-a" ∧
    solr.nsVersion node = "v1" ∧
    solr.nsReady node = true.
Proof.
  destruct (every_pod_has_its_node_status cloud_example.cloud
    [cloud_example.mkPod "pod-b" "v2" []; cloud_example.mkPod "pod-a" "v1" []]
    solr.emptyStatus 3) as (st & nodes & Hrun & Hnodes & _ & Hpods).
  - reflexivity.
  - all_scannable.
  - destruct (Hpods) with (p := cloud_example.mkPod "pod-a" "v1" [])
      as (node & Hin & Hname & _ & Hversion & Hready).
    + apply (bool_decide_unpack _). vm_compute. exact I.
    + right. left.
    + exists st, nodes, node. repeat split; try assumption.
      apply Hready. split; [discriminate|]. by repeat constructor.
Defined.

Lemma cloudStatus_is_stable_witness :
  ∃ newStatus',
    controllers.cloudStatus cloud_example.cloud
      [cloud_example.mkPod "pod-b" "v3" [cloud_example.backupVolume]]
      solr.emptyStatus = Ok newStatus' ∧
    controllers.cloudStatus cloud_example.cloud
      [cloud_example.mkPod "pod-b" "v3" [cloud_example.backupVolume]]
      newStatus' = Ok newStatus'.
Proof.
  eexists. split; [vm_compute; reflexivity|].
  apply (cloudStatus_is_stable cloud_example.cloud _ solr.emptyStatus).
  vm_compute. reflexivity.
Defined.

(** ** More on the passes of the reconciler *)

Section PassFacts.
Context `{SolrAPI} `{UtilPkg} `{Client W}.
Variable cfg : Settings.
Import controllers errors.

Implicit Types (instance : solr.SolrCloud) (w : W) (P : Call → Prop).

Lemma sends_mono {A} P (Q : Call → Prop) (m : M W A) :
  (∀ c, P c → Q c) → sends P m → sends Q m.
Proof. intros HPQ Hm w. eapply Forall_impl; [apply Hm|apply HPQ]. Qed.

Lemma about_request k (kinds : list Kind) c :
  setup.requested c = Some k → k ∈ kinds → about kinds c.
Proof. intros Hc Hk k' Hk'. congruence. Qed.

Lemma about_list kinds namespace selector :
  about kinds (CallList namespace selector).
Proof. intros k Hk. discriminate Hk. Qed.

(** Decompose a step into its requests, each about one kind of a list. *)
Ltac about_step :=
  first
    [ apply sends_ret
    | apply sends_panic
    | apply sends_request;
      first [ apply about_list
            | eapply about_request; [reflexivity|by left] ]
    | apply sends_orReturn; [|intros]
    | apply sends_bind; [|intros]
    | match goal with
      | |- sends _ (match ?x with _ => _ end) => destruct x
      | |- sends _ (let '(_, _) := ?x in _) => destruct x
      end ].

Lemma fetchInstance_about req :
  sends (about [KSolrCloud]) (fetchInstance cfg req).
Proof. unfold fetchInstance, Get, Update. repeat about_step. Qed.

Lemma reconcileZk_about instance busyBoxImage newStatus :
  sends (about (if providesZk cfg (solr.ZookeeperRef_ (solr.scSpec instance))
                then [KZookeeperCluster] else []))
    (reconcileZk cfg instance busyBoxImage newStatus).
Proof.
  unfold reconcileZk, providesZk, Get, Create, Update.
  destruct (solr.ConnectionInfo _); [apply sends_ret|].
  destruct (solr.ProvidedZookeeper_ _); [|apply sends_ret].
  destruct (useZkCRD cfg); simpl; repeat about_step.
Qed.

Lemma resolveZk_about instance :
  sends (about (if providesZk cfg (solr.ZookeeperRef_ (solr.scSpec instance))
                then [KZookeeperCluster] else []))
    (resolveZk cfg instance).
Proof.
  unfold resolveZk. destruct (solr.BusyBoxImage _); [|apply sends_panic].
  apply sends_bind; [apply reconcileZk_about|].
  intros [[err|] newStatus]; apply sends_ret.
Qed.

Lemma reconcileCommonService_about instance :
  sends (about [KService]) (reconcileCommonService instance).
Proof.
  unfold reconcileCommonService, Get, Create, Update. repeat about_step.
Qed.

Lemma reconcileNodeService_about instance nodeName :
  sends (about [KService]) (reconcileNodeService instance nodeName).
Proof.
  unfold reconcileNodeService, Get, Create, Update. repeat about_step.
Qed.

Lemma reconcileAllNodeServices_about instance solrNodeNames :
  sends (about [KService]) (reconcileAllNodeServices instance solrNodeNames).
Proof.
  unfold reconcileAllNodeServices.
  destruct (UsesIndividualNodeServices instance); [|apply sends_ret].
  generalize false, (∅ : labelmap).
  induction solrNodeNames as [|nodeName rest IH]; intros block hostNameIpMap;
    simpl; [apply sends_ret|].
  apply sends_bind; [apply reconcileNodeService_about|].
  intros [[err|] ip]; [apply sends_ret|].
  destruct (solr.External _) as [ext|]; [|apply sends_panic].
  destruct (solr.UseExternalAddress ext); [|apply IH].
  destruct (util.eqs ip ""); apply IH.
Qed.

Lemma reconcileHeadlessService_about instance :
  sends (about [KService]) (reconcileHeadlessService instance).
Proof.
  unfold reconcileHeadlessService, Get, Create, Update. repeat about_step.
Qed.

Lemma reconcileConfigMap_about instance :
  sends (about [KConfigMap]) (reconcileConfigMap instance).
Proof.
  unfold reconcileConfigMap, Get, Create, Update. repeat about_step.
Qed.

Lemma reconcileStatefulSet_about instance newStatus hostNameIpMap block :
  sends (about [KStatefulSet])
    (reconcileStatefulSet instance newStatus hostNameIpMap block).
Proof.
  unfold reconcileStatefulSet, Get, Create, Update. repeat about_step.
Qed.

Lemma recomputeStatus_about instance newStatus :
  sends (about []) (recomputeStatus instance newStatus).
Proof.
  unfold recomputeStatus, reconcileCloudStatus, List_. repeat about_step.
Qed.

Lemma reconcileIngress_about instance solrNodeNames :
  sends (about (if usesIngress instance then [KIngress] else []))
    (reconcileIngress cfg instance solrNodeNames).
Proof.
  unfold reconcileIngress, usesIngress, Get, Create, Update.
  destruct (solr.External _) as [ext|]; [|apply sends_ret].
  destruct (util.eqs (solr.Method ext) IngressMethod); repeat about_step.
Qed.

Lemma persistStatus_about instance newStatus :
  sends (about [KSolrCloud]) (persistStatus instance newStatus).
Proof. unfold persistStatus, StatusUpdate. repeat about_step. Qed.

(** A pass sends what its steps send. *)
Lemma Reconcile_sends P req w :
  sends P (fetchInstance cfg req) →
  (∀ instance, fetched cfg req w = Some instance →
     sends P (resolveZk cfg instance) ∧
     sends P (reconcileCommonService instance) ∧
     (∀ names, sends P (reconcileAllNodeServices instance names)) ∧
     sends P (reconcileHeadlessService instance) ∧
     sends P (reconcileConfigMap instance) ∧
     (∀ newStatus hostNameIpMap block,
        sends P (reconcileStatefulSet instance newStatus hostNameIpMap block)) ∧
     (∀ newStatus, sends P (recomputeStatus instance newStatus)) ∧
     (∀ names, sends P (reconcileIngress cfg instance names)) ∧
     (∀ newStatus, sends P (persistStatus instance newStatus))) →
  Forall P (trace (Reconcile cfg req w)).
Proof.
  intros Hfetch Hsteps. unfold Reconcile.
  apply trace_bind_Forall; [|intros [returned|[]] w' t' _; apply (sends_ret P)].
  unfold orReturn at 1.
  apply trace_bind_Forall; [apply Hfetch|].
  intros [returned|instance] w1 t1 Hrun; [apply (sends_ret P)|].
  destruct (Hsteps instance) as
    (Hzk & Hcommon & Hnodes & Hheadless & Hconfig & Hsts & Hstatus
     & Hingress & Hpersist).
  { unfold fetched. by rewrite Hrun. }
  apply sends_orReturn; [done|]. intros newStatus. unfold reconcileResources.
  apply sends_orReturn; [done|intros _].
  apply sends_orReturn; [done|intros [block hostNameIpMap]].
  apply sends_orReturn; [done|intros _].
  apply sends_orReturn; [done|intros _].
  apply sends_orReturn; [done|intros newStatus1].
  apply sends_orReturn; [done|intros newStatus2].
  apply sends_orReturn; [done|intros _]. done.
Qed.

(** The steps of a pass other than the Zookeeper and ingress steps are
    about SolrClouds, Services, ConfigMaps and StatefulSets. *)
Lemma Reconcile_about P req w :
  (∀ c, about [KSolrCloud] c → P c) →
  (∀ c, about [KService] c → P c) →
  (∀ c, about [KConfigMap] c → P c) →
  (∀ c, about [KStatefulSet] c → P c) →
  (∀ c, about [] c → P c) →
  (∀ instance, fetched cfg req w = Some instance →
     sends P (resolveZk cfg instance) ∧
     ∀ names, sends P (reconcileIngress cfg instance names)) →
  Forall P (trace (Reconcile cfg req w)).
Proof.
  intros Hcloud Hservice Hconfig Hsts Hnone Hrest.
  apply Reconcile_sends.
  - eapply sends_mono; [apply Hcloud|apply fetchInstance_about].
  - intros instance Hfetched. destruct (Hrest instance Hfetched) as [Hzk Hing].
    split; [done|].
    split; [eapply sends_mono; [apply Hservice|];
            apply reconcileCommonService_about|].
    split; [intros names; eapply sends_mono; [apply Hservice|];
            apply reconcileAllNodeServices_about|].
    split; [eapply sends_mono; [apply Hservice|];
            apply reconcileHeadlessService_about|].
    split; [eapply sends_mono; [apply Hconfig|];
            apply reconcileConfigMap_about|].
    split; [intros s m b; eapply sends_mono; [apply Hsts|];
            apply reconcileStatefulSet_about|].
    split; [intros s; eapply sends_mono; [apply Hnone|];
            apply recomputeStatus_about|].
    split; [done|].
    intros s; eapply sends_mono; [apply Hcloud|]; apply persistStatus_about.
Qed.

(** The kinds of a literal list are among those registered always. *)
Ltac always_watched Hk :=
  repeat (apply elem_of_cons in Hk as [->|Hk];
          [apply elem_of_app; left; by repeat constructor|]);
  by apply elem_of_nil in Hk.

(** The kind is none of a literal list. *)
Ltac other_kind :=
  let Hin := fresh "Hin" in
  intros Hin;
  repeat (apply elem_of_cons in Hin as [Hin|Hin]; [discriminate Hin|]);
  by apply elem_of_nil in Hin.

(** X17.  Whatever a pass gets, creates or updates is of a kind the
    controller is registered for; the ZookeeperCluster among them only when
    the Zookeeper CRD is in use. *)
Theorem every_request_is_watched req w :
  Forall (λ c, ∀ k, setup.requested c = Some k →
                 setup.OfKind k ∈ setup.SetupWithManagerAndReconciler cfg)
    (trace (Reconcile cfg req w)).
Proof.
  unfold setup.SetupWithManagerAndReconciler.
  assert (Hkinds : ∀ kinds,
    (∀ k, k ∈ kinds →
       setup.OfKind k ∈ setup.SetupWithManagerAndReconciler cfg) →
    ∀ c, about kinds c →
      ∀ k, setup.requested c = Some k →
        setup.OfKind k ∈ setup.SetupWithManagerAndReconciler cfg).
  { intros kinds Hin c Hc k Hk. by apply Hin, Hc. }
  unfold setup.SetupWithManagerAndReconciler in Hkinds.
  apply Reconcile_about.
  - apply Hkinds. intros k Hk. always_watched Hk.
  - apply Hkinds. intros k Hk. always_watched Hk.
  - apply Hkinds. intros k Hk. always_watched Hk.
  - apply Hkinds. intros k Hk. always_watched Hk.
  - apply Hkinds. intros k Hk. always_watched Hk.
  - intros instance _. split.
    + eapply sends_mono; [|apply resolveZk_about]. apply Hkinds.
      unfold providesZk. intros k Hk.
      destruct (solr.ConnectionInfo _); [always_watched Hk|].
      destruct (solr.ProvidedZookeeper_ _); [|always_watched Hk].
      destruct (useZkCRD cfg); [|always_watched Hk].
      apply list_elem_of_singleton in Hk as ->.
      apply elem_of_app. right. by left.
    + intros names. eapply sends_mono; [|apply reconcileIngress_about].
      apply Hkinds. intros k Hk.
      destruct (usesIngress instance); always_watched Hk.
Qed.

(** X18.  A pass on an instance whose addressability method is not the
    ingress sends no request about an Ingress. *)
Theorem no_ingress_request_unless_selected req w instance :
  fetched cfg req w = Some instance →
  usesIngress instance = false →
  Forall (λ c, setup.requested c ≠ Some KIngress)
    (trace (Reconcile cfg req w)).
Proof.
  intros Hfetched Huses.
  assert (Hkinds : ∀ kinds, KIngress ∉ kinds →
            ∀ c, about kinds c → setup.requested c ≠ Some KIngress).
  { intros kinds Hnot c Hc Hreq. by apply Hnot, Hc. }
  apply Reconcile_about; try (apply Hkinds; other_kind).
  intros instance' Hfetched'. assert (instance' = instance) as -> by congruence.
  split.
  - eapply sends_mono; [|apply resolveZk_about]. apply Hkinds.
    destruct (providesZk _ _); other_kind.
  - intros names. eapply sends_mono; [|apply reconcileIngress_about].
    apply Hkinds. rewrite Huses. other_kind.
Qed.

(** X19.  A pass on an instance that brings its own connection info, or
    asks for no Zookeeper, or runs while the Zookeeper CRD is not in use,
    sends no request about a ZookeeperCluster. *)
Theorem no_zookeeper_request_unless_provided req w instance :
  fetched cfg req w = Some instance →
  providesZk cfg (solr.ZookeeperRef_ (solr.scSpec instance)) = false →
  Forall (λ c, setup.requested c ≠ Some KZookeeperCluster)
    (trace (Reconcile cfg req w)).
Proof.
  intros Hfetched Hprovides.
  assert (Hkinds : ∀ kinds, KZookeeperCluster ∉ kinds →
            ∀ c, about kinds c → setup.requested c ≠ Some KZookeeperCluster).
  { intros kinds Hnot c Hc Hreq. by apply Hnot, Hc. }
  apply Reconcile_about; try (apply Hkinds; other_kind).
  intros instance' Hfetched'. assert (instance' = instance) as -> by congruence.
  split.
  - eapply sends_mono; [|apply resolveZk_about]. apply Hkinds.
    rewrite Hprovides. other_kind.
  - intros names. eapply sends_mono; [|apply reconcileIngress_about].
    apply Hkinds. destruct (usesIngress instance); other_kind.
Qed.

(** Unfold a computation applied to a world down to the client's answers. *)
Ltac run_pass :=
  unfold orReturn, Get, Create, Update, StatusUpdate, List_;
  repeat (rewrite ?run_bind, ?run_ret, ?run_request; simpl).

(** X20.  When the defaults change the instance, the pass is the fetch and
    the update of the instance: it asks for a requeue when the update
    succeeds and answers its error otherwise. *)
Theorem changed_defaults_end_the_pass req w instance w1 instance' :
  clientGet KSolrCloud req w = (inr instance, w1) →
  WithDefaults (IngressBaseUrl cfg) instance = (true, instance') →
  Reconcile cfg req w
  = (Ok match (clientUpdate KSolrCloud instance' w1).1 with
        | inl err => ({| Requeue := false |}, Some err)
        | inr _ => ({| Requeue := true |}, None)
        end,
     (clientUpdate KSolrCloud instance' w1).2,
     [CallGet KSolrCloud req; CallUpdate KSolrCloud instance']).
Proof.
  intros Hget Hdefaults. unfold Reconcile, fetchInstance. run_pass.
  rewrite Hget. simpl. rewrite Hdefaults. run_pass.
  by destruct (clientUpdate KSolrCloud instance' w1) as [[err|o] w2].
Qed.

(** X21.  Once the owner is set and the Get has answered (an object, or
    not-found), the common service step never ends the pass: an error of
    its Create or Update is dropped. *)
Theorem common_service_write_errors_are_dropped instance w service answer w1 :
  SetControllerReference instance KService (GenerateCommonService instance)
    = inr service →
  clientGet KService (keyOf (svcMeta service)) w = (answer, w1) →
  (∀ err, answer = inl err → IsNotFound err = true) →
  result (reconcileCommonService instance w) = Ok (inr ()).
Proof.
  intros Hset Hget Hanswer. unfold reconcileCommonService, result.
  rewrite Hset. run_pass. rewrite Hget. simpl.
  destruct answer as [err|found].
  - rewrite (Hanswer err eq_refl). by run_pass.
  - destruct (CopyServiceFields service found) as [[|] found']; by run_pass.
Qed.

(** X22.  The headless service step, unlike the common service step, ends
    the pass with the error of its Create. *)
Theorem headless_service_create_error_ends_the_pass
    instance w headless notFound w1 err w2 :
  UsesHeadlessService instance = true →
  SetControllerReference instance KService (GenerateHeadlessService instance)
    = inr headless →
  clientGet KService (keyOf (svcMeta headless)) w = (inl notFound, w1) →
  IsNotFound notFound = true →
  clientCreate KService headless w1 = (inl err, w2) →
  reconcileHeadlessService instance w
  = (Ok (inl (requeueOrNot, Some err)), w2,
     [CallGet KService (keyOf (svcMeta headless));
      CallCreate KService headless]).
Proof.
  intros Huses Hset Hget Hnf Hcreate. unfold reconcileHeadlessService.
  rewrite Huses, Hset. run_pass. rewrite Hget. simpl. rewrite Hnf.
  run_pass. by rewrite Hcreate.
Qed.

(** *** A pass with nothing left to do *)

Lemma sends_found {B} P k key (f : error + obj k → M W B) :
  (∀ k key w, ∃ o w', clientGet k key w = (inr o, w')) →
  P (CallGet k key) →
  (∀ o, sends P (f (inr o))) →
  sends P (Get k key ≫= f).
Proof.
  intros Hfound Hc Hf w. apply trace_bind_Forall.
  - unfold Get. rewrite run_request. by repeat constructor.
  - intros a w1 t1 Hrun. unfold Get in Hrun. rewrite run_request in Hrun.
    destruct (Hfound k key w) as (o & w' & Hget). rewrite Hget in Hrun.
    injection Hrun as <- _ _. apply Hf.
Qed.

Lemma reads_write_nothing k key : writesAtMostStatus (CallGet k key).
Proof. by left. Qed.

(** Decompose a step of a settled pass: each Get finds its object, and the
    copy that follows asks for no update. *)
Ltac settled_step Hfound :=
  first
    [ apply sends_ret
    | apply sends_panic
    | match goal with
      | |- sends ?P (Get ?k ?key ≫= ?f) =>
          apply (sends_found P k key f);
          [exact Hfound|apply reads_write_nothing|intros]
      end
    | apply sends_orReturn; [|intros]
    | apply sends_bind; [|intros]
    | match goal with
      | Hcopy : ∀ from to, (?copy from to).1 = false
        |- sends _ (let '(_, _) := ?copy ?a ?b in _) =>
          let Hno := fresh "Hno" in
          pose proof (Hcopy a b) as Hno;
          destruct (copy a b) as [? ?]; simpl in Hno; subst
      | Hcopy : ∀ from to, (?copy from to).1 = false
        |- sends _ ((let '(_, _) := ?copy ?a ?b in _) ≫= _) =>
          let Hno := fresh "Hno" in
          pose proof (Hcopy a b) as Hno;
          destruct (copy a b) as [? ?]; simpl in Hno; subst
      | |- sends _ (match ?x with _ => _ end) => destruct x
      end ].


End PassFacts.

(** ** More passes on the sample platforms *)

Lemma no_ingress_request_unless_selected_witness :
  Forall (λ c, setup.requested c ≠ Some KIngress)
    (trace (controllers.Reconcile cloud_example.settings
              cloud_example.request cloud_example.pendingCluster)).
Proof.
  apply (no_ingress_request_unless_selected (W := sample.Cluster)
           cloud_example.settings cloud_example.request
           cloud_example.pendingCluster cloud_example.pendingCloud).
  - reflexivity.
  - reflexivity.
Defined.

Lemma no_zookeeper_request_unless_provided_witness :
  Forall (λ c, setup.requested c ≠ Some KZookeeperCluster)
    (trace (controllers.Reconcile cloud_example.settings
              cloud_example.request cloud_example.pendingCluster)).
Proof.
  apply (no_zookeeper_request_unless_provided (W := sample.Cluster)
           cloud_example.settings cloud_example.request
           cloud_example.pendingCluster cloud_example.pendingCloud).
  - reflexivity.
  - reflexivity.
Defined.

(** A cloud stored without replicas: the pass sets them and asks to be
    run again. *)
Lemma changed_defaults_end_the_pass_witness :
  result (controllers.Reconcile (H := platforms.defaultingApi)
            cloud_example.settings cloud_example.request
            platforms.undefaultedCluster)
  = Ok ({| controllers.Requeue := true |}, None) ∧
  length (trace (controllers.Reconcile (H := platforms.defaultingApi)
                   cloud_example.settings cloud_example.request
                   platforms.undefaultedCluster)) = 2%nat.
Proof.
  rewrite (changed_defaults_end_the_pass (H := platforms.defaultingApi)
             (W := sample.Cluster) cloud_example.settings
             cloud_example.request platforms.undefaultedCluster
             platforms.undefaultedCloud platforms.undefaultedCluster
             (WithDefaults (SolrAPI := platforms.defaultingApi) "example.com"
                platforms.undefaultedCloud).2);
    [|reflexivity|reflexivity].
  split; reflexivity.
Defined.

(** Against an API server that refuses writes, the common service step
    goes on and the headless service step ends the pass. *)
Lemma common_service_write_errors_are_dropped_witness :
  result (controllers.reconcileCommonService (H1 := platforms.readOnlyClient)
            cloud_example.cloud
            {| platforms.view := cloud_example.emptyCluster |})
  = Ok (inr ()) ∧
  setup.written <$>
    trace (controllers.reconcileCommonService
             (H1 := platforms.readOnlyClient) cloud_example.cloud
             {| platforms.view := cloud_example.emptyCluster |})
  = [None; Some KService].
Proof.
  split; [|vm_compute; reflexivity].
  apply (common_service_write_errors_are_dropped
           (H1 := platforms.readOnlyClient) cloud_example.cloud
           {| platforms.view := cloud_example.emptyCluster |}
           (GenerateCommonService cloud_example.cloud)
           (inl sample.notFound)
           {| platforms.view := cloud_example.emptyCluster |}).
  - reflexivity.
  - reflexivity.
  - intros err [= <-]. reflexivity.
Defined.

Lemma headless_service_create_error_ends_the_pass_witness :
  result (controllers.reconcileHeadlessService
            (H1 := platforms.readOnlyClient) cloud_example.cloud
            {| platforms.view := cloud_example.emptyCluster |})
  = Ok (inl (controllers.requeueOrNot, Some platforms.forbidden)).
Proof.
  rewrite (headless_service_create_error_ends_the_pass
             (H1 := platforms.readOnlyClient) cloud_example.cloud
             {| platforms.view := cloud_example.emptyCluster |}
             (GenerateHeadlessService cloud_example.cloud)
             sample.notFound
             {| platforms.view := cloud_example.emptyCluster |}
             platforms.forbidden
             {| platforms.view := cloud_example.emptyCluster |});
    reflexivity.
Defined.

Lemma settled_platform_is_settled :
  settled (H := sample.api) (H0 := platforms.settledPkg)
    (H1 := platforms.settledClient).
Proof.
  repeat split; try reflexivity.
  intros k key w. by eexists _, _.
Qed.

